(** * Payment webhook reconciliation and access granting

    A shallow embedding of the PayPal part of the course mini-app server,
    found under [server/src/controllers/admin.controller.ts]: the webhook
    dispatcher [handlePayPalWebhook], the handlers
    [handlePaymentCaptureCompleted], [handlePaymentCaptureDenied],
    [handlePaymentCaptureRefunded] and [handleCheckoutOrderApproved], and
    [createPurchaseOrder]; together with the helpers they call:
    [normalizeCurrency] ([server/src/utils/currency.ts]), [loadAppConfig]
    and [getCourseConfig] (the application configuration loader),
    [loadCourseMetadata] (the filesystem loader) and [cache] / [CACHE_KEYS]
    ([server/src/config/redis.ts]).

    Modelling conventions.
    - JavaScript strings are modelled as [string] and are meant to hold
      ASCII text: [trim], [toUpperCase], [parseInt] and the class [\d] have
      their JavaScript meaning on the characters below 128, and characters
      from 128 on are carried along unchanged.
    - JavaScript integers are modelled as [Z].  The model is exact; the
      source computes with doubles, which are exact below 2^53.
    - Prices (arbitrary non-negative JavaScript numbers) are modelled as
      exact rationals [Q]; the handlers only copy them, and
      [createPurchaseOrder] prints one with two decimals.
    - The relational store is a pair of tables, each a list of rows in
      insertion order; every SQL statement of the source is a function on
      them.  Statements are taken to succeed; what may throw is the loading
      of [config.yaml] and the calls to the payment provider and the courier.
    - [async] functions are run to completion one after the other: a handler
      is a function from the store to an outcome and a new store.
    - Log lines are left out. *)

From Stdlib Require Import ZArith String Ascii List QArith_base.
From Stdlib Require Import DecimalString DecimalPos Sorted.
From stdpp Require Import base option list strings gmap.

Local Open Scope string_scope.
Local Open Scope list_scope.
Local Open Scope Z_scope.

(** ** Characters and strings *)

Module Js.

(** [\d] without the unicode flag: the ten ASCII digits. *)
Definition is_digit (c : ascii) : bool :=
  let n := N_of_ascii c in (48 <=? n)%N && (n <=? 57)%N.

Definition digit_val (c : ascii) : Z := Z.of_N (N_of_ascii c) - 48.

(** White space as [String.prototype.trim] and [parseInt] see it: TAB, LF,
    VT, FF, CR and SPACE. *)
Definition is_space (c : ascii) : bool :=
  let n := N_of_ascii c in ((9 <=? n)%N && (n <=? 13)%N) || (n =? 32)%N.

Definition is_empty (s : string) : bool :=
  match s with EmptyString => true | String _ _ => false end.

Fixpoint trim_start (s : string) : string :=
  match s with
  | EmptyString => EmptyString
  | String c s' => if is_space c then trim_start s' else s
  end.

Fixpoint trim_end (s : string) : string :=
  match s with
  | EmptyString => EmptyString
  | String c s' =>
      let t := trim_end s' in
      if is_space c && is_empty t then EmptyString else String c t
  end.

Definition trim (s : string) : string := trim_end (trim_start s).

Definition upper_char (c : ascii) : ascii :=
  let n := N_of_ascii c in
  if (97 <=? n)%N && (n <=? 122)%N then ascii_of_N (n - 32) else c.

Fixpoint toUpperCase (s : string) : string :=
  match s with
  | EmptyString => EmptyString
  | String c s' => String (upper_char c) (toUpperCase s')
  end.

(** The longest prefix of digits (a greedy [\d*]) and what follows it. *)
Fixpoint span_digits (s : string) : string * string :=
  match s with
  | EmptyString => (EmptyString, EmptyString)
  | String c s' =>
      if is_digit c
      then let '(d, r) := span_digits s' in (String c d, r)
      else (EmptyString, s)
  end.

Fixpoint strip_prefix (p s : string) : option string :=
  match p, s with
  | EmptyString, _ => Some s
  | String a p', String b s' =>
      if Ascii.eqb a b then strip_prefix p' s' else None
  | String _ _, EmptyString => None
  end.

(** The value of a string of digits read in base ten, most significant
    digit first. *)
Fixpoint digits_value_from (acc : Z) (d : string) : Z :=
  match d with
  | EmptyString => acc
  | String c d' => digits_value_from (acc * 10 + digit_val c) d'
  end.

Definition digits_value (d : string) : Z := digits_value_from 0 d.

(** [parseInt(s, 10)]: leading white space is skipped, one sign is read,
    then the longest prefix of digits; [None] stands for [NaN]. *)
Definition parseInt10 (s : string) : option Z :=
  let t := trim_start s in
  let '(neg, u) :=
    match t with
    | String "-" r => (true, r)
    | String "+" r => (false, r)
    | _ => (false, t)
    end in
  let '(d, _) := span_digits u in
  if is_empty d then None
  else Some (if neg then - digits_value d else digits_value d).

(** Truthiness of an optional string: [undefined] and [""] are falsy. *)
Definition truthy (o : option string) : option string :=
  match o with
  | Some s => if is_empty s then None else Some s
  | None => None
  end.

(** [String(n)] for an integer. *)
Definition string_of_Z (n : Z) : string :=
  NilZero.string_of_int (Z.to_int n).

(** [x.toFixed(2)] for a non-negative number, read as an exact rational:
    the integer [n] nearest to [100 x] (the larger one on a tie), printed
    with two decimals.  Course prices are non-negative by [CourseSchema]. *)
Definition toFixed2 (x : Q) : string :=
  let n := (Qnum x * 200 + Zpos (Qden x)) / (2 * Zpos (Qden x)) in
  let frac := n mod 100 in
  string_of_Z (n / 100) +:+ "." +:+
  (if frac <? 10 then "0" else "") +:+ string_of_Z frac.

End Js.

(** ** The custom id *)

(** One attempt of [/user_(\d+)_course_(\d+)/] at the start of [s]; the
    result is the pair of captured groups.  A greedy [\d+] never has to give
    a digit back here: the first group is followed by ["_"], which is not a
    digit, and the second by the end of the pattern. *)
Definition match_custom_id_here (s : string) : option (string * string) :=
  match Js.strip_prefix "user_" s with
  | None => None
  | Some r1 =>
      let '(d1, r2) := Js.span_digits r1 in
      if Js.is_empty d1 then None
      else
        match Js.strip_prefix "_course_" r2 with
        | None => None
        | Some r3 =>
            let '(d2, _) := Js.span_digits r3 in
            if Js.is_empty d2 then None else Some (d1, d2)
        end
  end.

(** [customId.match(/user_(\d+)_course_(\d+)/)]: the pattern carries no
    anchors, so the match is tried at every position from the left and the
    first success wins. *)
Fixpoint match_custom_id (s : string) : option (string * string) :=
  match match_custom_id_here s with
  | Some g => Some g
  | None =>
      match s with
      | EmptyString => None
      | String _ s' => match_custom_id s'
      end
  end.

(** The (user id, course id) pair a handler reads from a custom id:
    [parseInt(match[1], 10)] and [parseInt(match[2], 10)]. *)
Definition parse_custom_id (customId : string) : option (Z * Z) :=
  match match_custom_id customId with
  | Some (d1, d2) => Some (Js.digits_value d1, Js.digits_value d2)
  | None => None
  end.

(** ** Data model *)

(** The [status] and [type] columns of [transactions]. *)
Inductive status := Pending | Success | Failed | Refunded.
Inductive kind := Purchase | Refund.

#[global] Instance status_eq_dec : EqDecision status.
Proof. solve_decision. Defined.

(** The [amount] column receives either the provider's decimal text
    ([event.resource.amount.value]) or a number (the course price, or [0]). *)
Inductive amount :=
  | AmountText (value : string)
  | AmountNumber (value : Q).

(** A row of [transactions]. *)
Record transaction := {
  tx_id : Z;
  tx_user_id : Z;
  tx_course_id : option Z;
  tx_payment_id : string;
  tx_amount : amount;
  tx_currency : string;
  tx_status : status;
  tx_type : kind;
  tx_notification_message_id : option Z;
  tx_created_at : Z
}.

(** A row of [user_courses]. *)
Record entitlement := {
  uc_id : Z;
  uc_user_id : Z;
  uc_course_id : Z;
  uc_is_favorite : bool;
  uc_purchased_at : Z
}.

(** The body of a provider order, as [createPurchaseOrder] builds it, and
    what the provider answers. *)
Record order_request := {
  rq_amount : string;
  rq_currency : string;
  rq_description : string;
  rq_custom_id : string;
  rq_return_url : string;
  rq_cancel_url : string
}.

Record order_result := {
  or_orderId : string;
  or_approveUrl : string;
  or_amount : string;
  or_currency : string
}.

Record capture_result := {
  cr_captureId : string;
  cr_amount : string;
  cr_currency : string
}.

(** [PayPalWebhookEvent], restricted to the fields the server reads. *)
Record event_amount := {
  currency_code : string;
  value : string
}.

Record event_resource := {
  rs_id : string;
  rs_amount : option event_amount;
  rs_custom_id : option string;
  rs_order_id : option string   (* supplementary_data?.related_ids?.order_id *)
}.

Record webhook_event := {
  ev_id : string;
  event_type : string;
  resource : event_resource
}.

(** The five transmission headers handed to the signature check. *)
Record paypal_headers := {
  paypal_auth_algo : option string;
  paypal_cert_url : option string;
  paypal_transmission_id : option string;
  paypal_transmission_sig : option string;
  paypal_transmission_time : option string
}.

Record webhook_request := {
  rq_headers : paypal_headers;
  rq_body : webhook_event
}.

(** The part of [config.yaml] the payment flow reads ([AppConfigSchema]). *)
Record course_config := {
  cc_id : Z;
  cc_title : string;
  cc_price : Q;
  cc_currency : option string
}.

Record app_config := {
  app_defaultCurrency : string;
  payments_paypal_currency : option string;
  courses : list course_config
}.

(** What [loadCourseMetadata] returns, restricted likewise. *)
Record course_meta := {
  meta_title : string;
  meta_price : Q;
  meta_currency : string
}.

(** A thrown value: [createError(message, statusCode)] carries a status, a
    plain [Error] none. *)
Record error := {
  err_message : string;
  err_status : option Z
}.

Inductive result (A : Type) :=
  | Ok (a : A)
  | Err (e : error).
Arguments Ok {A} a.
Arguments Err {A} e.

(** ** The store *)

(** Everything the handlers can change: the two tables, the cache (when a
    Redis client is available), and the calls made to the courier and to
    the payment provider, most recent last. *)
Record store := {
  user_courses : list entitlement;
  transactions : list transaction;
  redis : option (gmap string string);
  confirmations : list (Z * string * option Z);
  processing_notices : list (Z * string);
  provider_orders : list order_request;
  provider_captures : list string
}.

Definition empty_store : store :=
  {| user_courses := []; transactions := []; redis := Some ∅;
     confirmations := []; processing_notices := [];
     provider_orders := []; provider_captures := [] |}.

Definition set_user_courses (f : list entitlement → list entitlement) (s : store) : store :=
  {| user_courses := f (user_courses s); transactions := transactions s;
     redis := redis s; confirmations := confirmations s;
     processing_notices := processing_notices s;
     provider_orders := provider_orders s;
     provider_captures := provider_captures s |}.

Definition set_transactions (f : list transaction → list transaction) (s : store) : store :=
  {| user_courses := user_courses s; transactions := f (transactions s);
     redis := redis s; confirmations := confirmations s;
     processing_notices := processing_notices s;
     provider_orders := provider_orders s;
     provider_captures := provider_captures s |}.

Definition set_redis (f : gmap string string → gmap string string) (s : store) : store :=
  {| user_courses := user_courses s; transactions := transactions s;
     redis := f <$> redis s; confirmations := confirmations s;
     processing_notices := processing_notices s;
     provider_orders := provider_orders s;
     provider_captures := provider_captures s |}.

Definition add_confirmation (c : Z * string * option Z) (s : store) : store :=
  {| user_courses := user_courses s; transactions := transactions s;
     redis := redis s; confirmations := confirmations s ++ [c];
     processing_notices := processing_notices s;
     provider_orders := provider_orders s;
     provider_captures := provider_captures s |}.

Definition add_processing_notice (c : Z * string) (s : store) : store :=
  {| user_courses := user_courses s; transactions := transactions s;
     redis := redis s; confirmations := confirmations s;
     processing_notices := processing_notices s ++ [c];
     provider_orders := provider_orders s;
     provider_captures := provider_captures s |}.

Definition add_provider_order (r : order_request) (s : store) : store :=
  {| user_courses := user_courses s; transactions := transactions s;
     redis := redis s; confirmations := confirmations s;
     processing_notices := processing_notices s;
     provider_orders := provider_orders s ++ [r];
     provider_captures := provider_captures s |}.

Definition add_provider_capture (o : string) (s : store) : store :=
  {| user_courses := user_courses s; transactions := transactions s;
     redis := redis s; confirmations := confirmations s;
     processing_notices := processing_notices s;
     provider_orders := provider_orders s;
     provider_captures := provider_captures s ++ [o] |}.

(** ** The world outside *)

(** [NODE_ENV], as [envSchema] admits it. *)
Inductive node_env := development | production | test.

#[global] Instance node_env_eq_dec : EqDecision node_env.
Proof. solve_decision. Defined.

(** What the handlers read or call and do not own: the environment
    configuration ([config/env.ts]), the content of [config.yaml] ([Err]
    when [loadAppConfig] throws), the course directories, the clock, the
    payment provider ([paypalService], whose calls may throw; the signature
    check is given the event in place of its JSON text) and the courier. *)
Record world := {
  paypal_webhookId : string;   (* config.paypal.webhookId, [""] when unset *)
  nodeEnv : node_env;          (* config.nodeEnv *)
  frontendUrl : string;
  config_yaml : result app_config;
  course_dir_exists : Z → bool;
  now : Z;
  verifyWebhookSignature : paypal_headers → webhook_event → string → result bool;
  captureOrder : string → result capture_result;
  createOrder : order_request → result order_result;
  confirmation_courier : Z → string → option Z → result unit;
  processing_courier : Z → string → result (option Z)
}.

(** ** Handlers as store transformers that may throw *)

Inductive outcome (A : Type) :=
  | Done (a : A)
  | Threw (e : error).
Arguments Done {A} a.
Arguments Threw {A} e.

Definition M (A : Type) : Type := store → outcome A * store.

Definition ret {A} (a : A) : M A := λ s, (Done a, s).

Definition bind {A B} (m : M A) (k : A → M B) : M B :=
  λ s, match m s with
       | (Done a, s') => k a s'
       | (Threw e, s') => (Threw e, s')
       end.

Definition throw {A} (e : error) : M A := λ s, (Threw e, s).

(** [try { m } catch (error) { h error }] *)
Definition try_catch {A} (m : M A) (h : error → M A) : M A :=
  λ s, match m s with
       | (Done a, s') => (Done a, s')
       | (Threw e, s') => h e s'
       end.

Definition get_store : M store := λ s, (Done s, s).

Definition modify (f : store → store) : M unit := λ s, (Done tt, f s).

(** Awaiting a call of the outside world. *)
Definition await {A} (r : result A) : M A :=
  match r with
  | Ok a => ret a
  | Err e => throw e
  end.

Declare Scope handler_scope.
Delimit Scope handler_scope with handler.
Notation "x <- m ;; k" := (bind m (λ x, k))
  (at level 100, m at next level, right associativity) : handler_scope.
Notation "m ;; k" := (bind m (λ _, k))
  (at level 100, right associativity) : handler_scope.
Local Open Scope handler_scope.

Definition run_store {A} (m : M A) (s : store) : store := snd (m s).
Definition run_outcome {A} (m : M A) (s : store) : outcome A := fst (m s).

(** ** SQL statements *)

(** The id a table gives to a new row: one more than the largest in use. *)
Definition next_id (ids : list Z) : Z := 1 + foldr Z.max 0 ids.

(** [SELECT id FROM user_courses WHERE user_id = ? AND course_id = ?] *)
Definition select_user_courses (userId courseId : Z) (s : store) : list entitlement :=
  filter (λ r, uc_user_id r = userId ∧ uc_course_id r = courseId) (user_courses s).

(** [INSERT INTO user_courses (user_id, course_id, purchased_at)
     VALUES (?, ?, datetime('now'))] *)
Definition insert_user_course (userId courseId at_ : Z) (s : store) : store :=
  set_user_courses (λ t,
    t ++ [ {| uc_id := next_id (uc_id <$> t); uc_user_id := userId;
              uc_course_id := courseId; uc_is_favorite := false;
              uc_purchased_at := at_ |} ]) s.

(** [DELETE FROM user_courses WHERE user_id = ? AND course_id = ?] *)
Definition delete_user_courses (userId courseId : Z) (s : store) : store :=
  set_user_courses
    (filter (λ r, ¬ (uc_user_id r = userId ∧ uc_course_id r = courseId))) s.

(** [WHERE user_id = ? AND course_id = ? AND status = 'pending'
     AND payment_id = ?] *)
Definition matches_pending (userId courseId : Z) (orderId : string)
    (r : transaction) : Prop :=
  tx_user_id r = userId ∧ tx_course_id r = Some courseId ∧
  tx_status r = Pending ∧ tx_payment_id r = orderId.

#[global] Instance matches_pending_dec u c o r : Decision (matches_pending u c o r).
Proof. unfold matches_pending. apply _. Defined.

(** [ORDER BY created_at DESC LIMIT 1]: a row with the greatest
    [created_at]; among several such, the one inserted first. *)
Fixpoint latest (rows : list transaction) : option transaction :=
  match rows with
  | [] => None
  | r :: rows' =>
      match latest rows' with
      | Some r' => if tx_created_at r <? tx_created_at r' then Some r' else Some r
      | None => Some r
      end
  end.

Definition select_pending (userId courseId : Z) (orderId : string) (s : store)
    : option transaction :=
  latest (filter (matches_pending userId courseId orderId) (transactions s)).

(** [UPDATE transactions SET status = ?, payment_id = ?, amount = ?,
     currency = ? WHERE id = ?] *)
Definition set_payment (st : status) (paymentId : string) (a : amount)
    (currency : string) (r : transaction) : transaction :=
  {| tx_id := tx_id r; tx_user_id := tx_user_id r;
     tx_course_id := tx_course_id r; tx_payment_id := paymentId;
     tx_amount := a; tx_currency := currency; tx_status := st;
     tx_type := tx_type r;
     tx_notification_message_id := tx_notification_message_id r;
     tx_created_at := tx_created_at r |}.

Definition update_where_id (id : Z) (f : transaction → transaction)
    (r : transaction) : transaction :=
  if decide (tx_id r = id) then f r else r.

Definition update_transaction (id : Z) (st : status) (paymentId : string)
    (a : amount) (currency : string) (s : store) : store :=
  set_transactions
    (fmap (update_where_id id (set_payment st paymentId a currency))) s.

(** [INSERT INTO transactions (user_id, course_id, payment_id, amount,
     currency, status, type, notification_message_id, created_at)
     VALUES (...)]; the statements that name no [created_at] or no
    [notification_message_id] column get the current time and [NULL]. *)
Definition insert_transaction (userId courseId : Z) (paymentId : string)
    (a : amount) (currency : string) (st : status) (ty : kind)
    (messageId : option Z) (at_ : Z) (s : store) : store :=
  set_transactions (λ t,
    t ++ [ {| tx_id := next_id (tx_id <$> t); tx_user_id := userId;
              tx_course_id := Some courseId; tx_payment_id := paymentId;
              tx_amount := a; tx_currency := currency; tx_status := st;
              tx_type := ty; tx_notification_message_id := messageId;
              tx_created_at := at_ |} ]) s.

(** ** The cache *)

Module CACHE_KEYS.
Definition USER (telegramId : Z) : string := "user:" +:+ Js.string_of_Z telegramId.
Definition USER_COURSES (userId : Z) : string :=
  "user:" +:+ Js.string_of_Z userId +:+ ":courses".
End CACHE_KEYS.

(** [cache.get]: nothing when no client is available. *)
Definition cache_get (key : string) (s : store) : option string :=
  redis s ≫= λ m, m !! key.

(** [cache.del]: does nothing when no client is available; a command sent to
    an available client is taken to succeed. *)
Definition cache_del (key : string) : M unit := modify (set_redis (delete key)).

(** ** Currency and course metadata *)

(** [normalizeCurrency(value, fallback)] *)
Definition normalizeCurrency (value : option string) (fallback : string) : string :=
  let trimmed := match value with Some v => Js.trim v | None => EmptyString end in
  Js.toUpperCase (if Js.is_empty trimmed then fallback else trimmed).

Section Handlers.

Variable w : world.

Definition loadAppConfig : M app_config := await (config_yaml w).

(** [getCourseConfig(courseId)]: [config.courses.find(c => c.id === courseId)] *)
Definition getCourseConfig (courseId : Z) : M (option course_config) :=
  config <- loadAppConfig ;;
  ret (find (λ c, bool_decide (cc_id c = courseId)) (courses config)).

(** [loadCourseMetadata(courseId)] *)
Definition loadCourseMetadata (courseId : Z) : M (option course_meta) :=
  appConfig <- loadAppConfig ;;
  let defaultCurrency := app_defaultCurrency appConfig in
  config <- getCourseConfig courseId ;;
  match config with
  | None => ret None
  | Some config =>
      ret (Some {| meta_title := cc_title config;
                   meta_price := cc_price config;
                   meta_currency :=
                     normalizeCurrency (cc_currency config) defaultCurrency |})
  end.

(** [resolvePaypalCurrency(courseCurrency)] *)
Definition resolvePaypalCurrency (courseCurrency : option string) : M string :=
  appConfig <- loadAppConfig ;;
  let defaultCurrency := app_defaultCurrency appConfig in
  let paypalCurrency :=
    normalizeCurrency (payments_paypal_currency appConfig) defaultCurrency in
  ret (normalizeCurrency courseCurrency paypalCurrency).

(** The courier call of [sendPurchaseConfirmationNotification]: the attempt
    is recorded, then the courier answers or throws. *)
Definition sendPurchaseConfirmationNotification (userId : Z) (title : string)
    (messageId : option Z) : M unit :=
  modify (add_confirmation (userId, title, messageId)) ;;
  await (confirmation_courier w userId title messageId).

Definition sendPurchaseProcessingNotification (userId : Z) (title : string)
    : M (option Z) :=
  modify (add_processing_notice (userId, title)) ;;
  await (processing_courier w userId title).

(** ** Webhook handlers *)

(** [event.resource.amount?.value || fallback] *)
Definition amount_or (event : webhook_event) (fallback : Q) : amount :=
  match Js.truthy (value <$> rs_amount (resource event)) with
  | Some v => AmountText v
  | None => AmountNumber fallback
  end.

Definition event_currency_code (event : webhook_event) : option string :=
  currency_code <$> rs_amount (resource event).

(** [handlePaymentCaptureCompleted(event)]: grant course access to the user. *)
Definition handlePaymentCaptureCompleted (event : webhook_event) : M unit :=
  let captureId := rs_id (resource event) in
  let customId := rs_custom_id (resource event) in
  let orderId := rs_order_id (resource event) in
  match Js.truthy customId with
  | None => ret tt
  | Some customId =>
  match parse_custom_id customId with
  | None => ret tt
  | Some (userId, courseId) =>
  (* Check if course exists in filesystem *)
  if negb (course_dir_exists w courseId) then ret tt else
  (* Load course metadata *)
  meta <- loadCourseMetadata courseId ;;
  match meta with
  | None => ret tt
  | Some meta =>
  courseCurrency <- resolvePaypalCurrency (Some (meta_currency meta)) ;;
  (* Check if already granted access *)
  s <- get_store ;;
  let existing := select_user_courses userId courseId s in
  if (0 <? length existing)%nat then ret tt else
  (* Grant access *)
  modify (insert_user_course userId courseId (now w)) ;;
  let paymentAmount := amount_or event (meta_price meta) in
  let paymentCurrency := normalizeCurrency (event_currency_code event) courseCurrency in
  reconciled <-
    match Js.truthy orderId with
    | Some orderId =>
        s <- get_store ;;
        match select_pending userId courseId orderId s with
        | Some pending =>
            modify (update_transaction (tx_id pending) Success captureId
                      paymentAmount paymentCurrency) ;;
            ret (tx_notification_message_id pending, true)
        | None => ret (None, false)
        end
    | None => ret (None, false)
    end ;;
  let '(notificationMessageId, updatedTransaction) := reconciled in
  (if updatedTransaction : bool then ret tt
   else modify (insert_transaction userId courseId captureId paymentAmount
                  paymentCurrency Success Purchase None (now w))) ;;
  (* Invalidate cache *)
  cache_del (CACHE_KEYS.USER_COURSES userId) ;;
  cache_del (CACHE_KEYS.USER userId) ;;
  try_catch
    (sendPurchaseConfirmationNotification userId (meta_title meta)
       notificationMessageId)
    (λ _, ret tt)
  end
  end
  end.

(** [handlePaymentCaptureDenied(event)]: record the failed payment. *)
Definition handlePaymentCaptureDenied (event : webhook_event) : M unit :=
  let captureId := rs_id (resource event) in
  let customId := rs_custom_id (resource event) in
  match Js.truthy customId with
  | None => ret tt
  | Some customId =>
  match parse_custom_id customId with
  | None => ret tt
  | Some (userId, courseId) =>
  fallbackCurrency <- resolvePaypalCurrency None ;;
  let currency := normalizeCurrency (event_currency_code event) fallbackCurrency in
  (* Record failed transaction *)
  modify (insert_transaction userId courseId captureId (amount_or event 0)
            currency Failed Purchase None (now w))
  end
  end.

(** [handlePaymentCaptureRefunded(event)]: revoke course access. *)
Definition handlePaymentCaptureRefunded (event : webhook_event) : M unit :=
  let captureId := rs_id (resource event) in
  let customId := rs_custom_id (resource event) in
  match Js.truthy customId with
  | None => ret tt
  | Some customId =>
  match parse_custom_id customId with
  | None => ret tt
  | Some (userId, courseId) =>
  fallbackCurrency <- resolvePaypalCurrency None ;;
  let currency := normalizeCurrency (event_currency_code event) fallbackCurrency in
  (* Revoke access *)
  modify (delete_user_courses userId courseId) ;;
  (* Record refund transaction *)
  modify (insert_transaction userId courseId captureId (amount_or event 0)
            currency Refunded Refund None (now w)) ;;
  (* Invalidate cache *)
  cache_del (CACHE_KEYS.USER_COURSES userId)
  end
  end.

(** [handleCheckoutOrderApproved(event)]: capture the approved order, then
    go on as if [PAYMENT.CAPTURE.COMPLETED] had been received; nothing
    thrown on the way leaves the handler. *)
Definition handleCheckoutOrderApproved (event : webhook_event) : M unit :=
  let orderId := rs_id (resource event) in
  try_catch
    (modify (add_provider_capture orderId) ;;
     captureResult <- await (captureOrder w orderId) ;;
     let captureEvent :=
       {| ev_id := ev_id event;
          event_type := "PAYMENT.CAPTURE.COMPLETED";
          resource :=
            {| rs_id := cr_captureId captureResult;
               rs_amount := Some {| currency_code := cr_currency captureResult;
                                    value := cr_amount captureResult |};
               rs_custom_id := rs_custom_id (resource event);
               rs_order_id := rs_order_id (resource event) |} |} in
     handlePaymentCaptureCompleted captureEvent)
    (λ _, ret tt).

(** ** The webhook dispatcher *)

Inductive response_body :=
  | Received (error : option string)   (* { received: true, error? } *)
  | Rejected (error : string).         (* { error } *)

Record response := {
  status_code : Z;
  body : response_body
}.

(** The [switch (event.event_type)] of the dispatcher. *)
Definition route (event : webhook_event) : M unit :=
  if decide (event_type event = "PAYMENT.CAPTURE.COMPLETED") then
    handlePaymentCaptureCompleted event
  else if decide (event_type event = "PAYMENT.CAPTURE.DENIED") then
    handlePaymentCaptureDenied event
  else if decide (event_type event = "PAYMENT.CAPTURE.REFUNDED") then
    handlePaymentCaptureRefunded event
  else if decide (event_type event = "CHECKOUT.ORDER.APPROVED") then
    handleCheckoutOrderApproved event
  else ret tt.

(** The signature gate: [Some r] when the request is answered with [r]
    without being processed, [None] when processing goes on. *)
Definition signature_gate (req : webhook_request) : M (option response) :=
  match Js.truthy (Some (paypal_webhookId w)) with
  | Some webhookId =>
      isValid <- await (verifyWebhookSignature w (rq_headers req) (rq_body req)
                          webhookId) ;;
      if negb isValid
      then ret (Some {| status_code := 401; body := Rejected "Invalid signature" |})
      else ret None
  | None =>
      if decide (nodeEnv w = production)
      then ret (Some {| status_code := 500;
                        body := Rejected "Webhook verification not configured" |})
      else ret None
  end.

(** [handlePayPalWebhook(req, res, _next)]; the result is what [res] sends. *)
Definition handlePayPalWebhook (req : webhook_request) : M response :=
  try_catch
    (let event := rq_body req in
     gate <- signature_gate req ;;
     match gate with
     | Some r => ret r
     | None =>
         (* Route to appropriate handler *)
         route event ;;
         (* Always respond with 200 OK *)
         ret {| status_code := 200; body := Received None |}
     end)
    (λ _, ret {| status_code := 200;
                 body := Received (Some "processed with error") |}).

(** ** Order creation *)

Definition createError (message : string) (statusCode : Z) : error :=
  {| err_message := message; err_status := Some statusCode |}.

Record purchase_data := {
  pd_orderId : string;
  pd_approveUrl : string;
  pd_price : Q;
  pd_amount : string;
  pd_currency : string
}.

(** What the request ends with: [res.json({ success: true, data })] or
    [next(error)]. *)
Inductive purchase_reply :=
  | Json (data : purchase_data)
  | Next (e : error).

(** [createPurchaseOrder(req, res, next)], for the authenticated user
    [req.user.id] and the text of [req.body.courseId] ([None] when the body
    has no such field). *)
Definition createPurchaseOrder (user_id : Z) (body_courseId : option string)
    : M purchase_reply :=
  try_catch
    (match body_courseId ≫= Js.parseInt10 with
     | None => throw (createError "Invalid course ID" 400)
     | Some courseId =>
     if courseId =? 0 then throw (createError "Invalid course ID" 400) else
     (* Check if course exists in filesystem *)
     if negb (course_dir_exists w courseId)
     then throw (createError "Course not found" 404) else
     (* Load course metadata *)
     meta <- loadCourseMetadata courseId ;;
     match meta with
     | None => throw (createError "Course not found" 404)
     | Some meta =>
     currency <- resolvePaypalCurrency (Some (meta_currency meta)) ;;
     (* Check if already purchased *)
     s <- get_store ;;
     let purchased := select_user_courses user_id courseId s in
     if (0 <? length purchased)%nat
     then throw (createError "Course already purchased" 400) else
     (* Create PayPal order *)
     let customId :=
       "user_" +:+ Js.string_of_Z user_id +:+ "_course_" +:+ Js.string_of_Z courseId in
     let request :=
       {| rq_amount := Js.toFixed2 (meta_price meta);
          rq_currency := currency;
          rq_description := meta_title meta;
          rq_custom_id := customId;
          rq_return_url := frontendUrl w +:+ "/purchase/success";
          rq_cancel_url := frontendUrl w +:+ "/purchase/cancelled" |} in
     modify (add_provider_order request) ;;
     order <- await (createOrder w request) ;;
     notificationMessageId <-
       try_catch (sendPurchaseProcessingNotification user_id (meta_title meta))
                 (λ _, ret None) ;;
     modify (insert_transaction user_id courseId (or_orderId order)
               (AmountNumber (meta_price meta)) (or_currency order)
               Pending Purchase notificationMessageId (now w)) ;;
     ret (Json {| pd_orderId := or_orderId order;
                  pd_approveUrl := or_approveUrl order;
                  pd_price := meta_price meta;
                  pd_amount := or_amount order;
                  pd_currency := or_currency order |})
     end
     end)
    (λ e, ret (Next e)).

End Handlers.

(** ** Reference notions used in the statements *)

(** A string of decimal digits. *)
Fixpoint all_digits (d : string) : bool :=
  match d with
  | EmptyString => true
  | String c d' => Js.is_digit c && all_digits d'
  end.

(** The exact form [user_<digits>_course_<digits>], each group of digits
    non-empty: what a custom id built by [createPurchaseOrder] looks like. *)
Definition exact_custom_id_form (customId : string) : Prop :=
  ∃ du dc : string,
    all_digits du = true ∧ all_digits dc = true ∧
    Js.is_empty du = false ∧ Js.is_empty dc = false ∧
    customId = "user_" +:+ du +:+ "_course_" +:+ dc.

(** The custom id a handler goes on with: present, non-empty and matched. *)
Definition event_ids (event : webhook_event) : option (Z * Z) :=
  Js.truthy (rs_custom_id (resource event)) ≫= parse_custom_id.

(** The course as the handlers see it in world [w]: its directory exists,
    [config.yaml] loads as [cfg] and lists the course as [cc]. *)
Definition course_available (w : world) (courseId : Z) (cfg : app_config)
    (cc : course_config) : Prop :=
  course_dir_exists w courseId = true ∧
  config_yaml w = Ok cfg ∧
  find (λ c, bool_decide (cc_id c = courseId)) (courses cfg) = Some cc.

(** The currency [resolvePaypalCurrency(meta.currency)] yields for a course. *)
Definition course_currency (cfg : app_config) (cc : course_config) : string :=
  normalizeCurrency
    (Some (normalizeCurrency (cc_currency cc) (app_defaultCurrency cfg)))
    (normalizeCurrency (payments_paypal_currency cfg) (app_defaultCurrency cfg)).

Definition entitlement_count (userId courseId : Z) (s : store) : nat :=
  length (select_user_courses userId courseId s).

Definition rows_with_status (st : status) (s : store) : list transaction :=
  filter (λ r, tx_status r = st) (transactions s).

(** [id] is a primary key of [transactions]. *)
Definition tx_ids_unique (s : store) : Prop := NoDup (tx_id <$> transactions s).

(** The row the handler inserts into [user_courses]. *)
Definition granted_entitlement (w : world) (u c : Z) (s : store) : entitlement :=
  {| uc_id := next_id (uc_id <$> user_courses s); uc_user_id := u;
     uc_course_id := c; uc_is_favorite := false; uc_purchased_at := now w |}.

(** The amount and the currency the handler records. *)
Definition payment_amount (event : webhook_event) (cc : course_config) : amount :=
  amount_or event (cc_price cc).

Definition payment_currency (event : webhook_event) (cfg : app_config)
    (cc : course_config) : string :=
  normalizeCurrency (event_currency_code event) (course_currency cfg cc).

(** The row the handler inserts into [transactions] when it finds no pending
    one to update. *)
Definition granted_transaction (w : world) (event : webhook_event) (u c : Z)
    (cfg : app_config) (cc : course_config) (s : store) : transaction :=
  {| tx_id := next_id (tx_id <$> transactions s); tx_user_id := u;
     tx_course_id := Some c; tx_payment_id := rs_id (resource event);
     tx_amount := payment_amount event cc;
     tx_currency := payment_currency event cfg cc;
     tx_status := Success; tx_type := Purchase;
     tx_notification_message_id := None; tx_created_at := now w |}.

(** The pending row the handler reconciles with, if any. *)
Definition pending_for (event : webhook_event) (u c : Z) (s : store)
    : option transaction :=
  Js.truthy (rs_order_id (resource event)) ≫= λ orderId, select_pending u c orderId s.

(** A world and an event for the examples: one course, number 2, at 19.99
    with the currency left to the default; every outside call succeeds. *)
Definition example_course : course_config :=
  {| cc_id := 2; cc_title := "Course two"; cc_price := (1999 # 100)%Q;
     cc_currency := None |}.

Definition example_config : app_config :=
  {| app_defaultCurrency := "usd"; payments_paypal_currency := None;
     courses := [example_course] |}.

Definition example_world : world :=
  {| paypal_webhookId := "WH-ID"; nodeEnv := production;
     frontendUrl := "https://app.example";
     config_yaml := Ok example_config;
     course_dir_exists := λ c, bool_decide (c = 2);
     now := 1000;
     verifyWebhookSignature := λ h _ _,
       Ok (bool_decide (paypal_transmission_sig h = Some "good"));
     captureOrder := λ o,
       Ok {| cr_captureId := "CAP-" +:+ o; cr_amount := "19.99";
             cr_currency := "USD" |};
     createOrder := λ r,
       Ok {| or_orderId := "ORDER1"; or_approveUrl := "https://pay.example/approve";
             or_amount := rq_amount r; or_currency := rq_currency r |};
     confirmation_courier := λ _ _ _, Ok tt;
     processing_courier := λ _ _, Ok (Some 55) |}.

Definition example_event (type_ : string) (customId orderId : option string)
    (a : option event_amount) : webhook_event :=
  {| ev_id := "WH-EVENT-1"; event_type := type_;
     resource := {| rs_id := "CAP123"; rs_amount := a;
                    rs_custom_id := customId; rs_order_id := orderId |} |}.

Definition example_entitlement : entitlement :=
  {| uc_id := 1; uc_user_id := 1; uc_course_id := 2; uc_is_favorite := false;
     uc_purchased_at := 900 |}.

(** The pending row [createPurchaseOrder] stores for user 1 and course 2. *)
Definition example_pending_at (t : Z) : transaction :=
  {| tx_id := 1; tx_user_id := 1; tx_course_id := Some 2;
     tx_payment_id := "ORDER1"; tx_amount := AmountNumber (1999 # 100);
     tx_currency := "USD"; tx_status := Pending; tx_type := Purchase;
     tx_notification_message_id := Some 55; tx_created_at := t |}.

Definition example_pending : transaction := example_pending_at 900.

Definition example_store (ucs : list entitlement) (txs : list transaction) : store :=
  {| user_courses := ucs; transactions := txs; redis := Some ∅;
     confirmations := []; processing_notices := [];
     provider_orders := []; provider_captures := [] |}.

Definition completed_event (customId orderId : option string)
    (a : option event_amount) : webhook_event :=
  example_event "PAYMENT.CAPTURE.COMPLETED" customId orderId a.

(** The request went through the signature gate: its signature was checked
    and found valid, or no webhook id is configured outside production. *)
Definition verified_or_exempt (w : world) (req : webhook_request) : Prop :=
  (paypal_webhookId w ≠ "" ∧
   verifyWebhookSignature w (rq_headers req) (rq_body req) (paypal_webhookId w)
   = Ok true) ∨
  (paypal_webhookId w = "" ∧ nodeEnv w ≠ production).

(** What the dispatcher does once the gate is behind: route, then answer. *)
Definition process_event (w : world) (event : webhook_event) : M response :=
  try_catch
    (route w event ;; ret {| status_code := 200; body := Received None |})
    (λ _, ret {| status_code := 200;
                 body := Received (Some "processed with error") |}).

Definition known_event_types : list string :=
  [ "PAYMENT.CAPTURE.COMPLETED"; "PAYMENT.CAPTURE.DENIED";
    "PAYMENT.CAPTURE.REFUNDED"; "CHECKOUT.ORDER.APPROVED" ].

Definition example_headers (sig : option string) : paypal_headers :=
  {| paypal_auth_algo := Some "SHA256withRSA";
     paypal_cert_url := Some "https://api.paypal.com/cert";
     paypal_transmission_id := Some "T-1";
     paypal_transmission_sig := sig;
     paypal_transmission_time := Some "2025-01-01T00:00:00Z" |}.

(** [example_world] with other settings for the gate, or a broken
    [config.yaml]. *)
Definition world_with_gate (webhookId : string) (nodeEnv_ : node_env) : world :=
  {| paypal_webhookId := webhookId; nodeEnv := nodeEnv_;
     frontendUrl := frontendUrl example_world;
     config_yaml := config_yaml example_world;
     course_dir_exists := course_dir_exists example_world;
     now := now example_world;
     verifyWebhookSignature := verifyWebhookSignature example_world;
     captureOrder := captureOrder example_world;
     createOrder := createOrder example_world;
     confirmation_courier := confirmation_courier example_world;
     processing_courier := processing_courier example_world |}.

Definition world_without_config : world :=
  {| paypal_webhookId := paypal_webhookId example_world;
     nodeEnv := nodeEnv example_world;
     frontendUrl := frontendUrl example_world;
     config_yaml := Err {| err_message := "Invalid config.yaml"; err_status := None |};
     course_dir_exists := course_dir_exists example_world;
     now := now example_world;
     verifyWebhookSignature := verifyWebhookSignature example_world;
     captureOrder := captureOrder example_world;
     createOrder := createOrder example_world;
     confirmation_courier := confirmation_courier example_world;
     processing_courier := processing_courier example_world |}.

(** ** Further reference notions *)

(** The order [createPurchaseOrder] asks the provider for. *)
Definition purchase_request (w : world) (user_id courseId : Z)
    (cfg : app_config) (cc : course_config) : order_request :=
  {| rq_amount := Js.toFixed2 (cc_price cc);
     rq_currency := course_currency cfg cc;
     rq_description := cc_title cc;
     rq_custom_id :=
       "user_" +:+ Js.string_of_Z user_id +:+ "_course_" +:+ Js.string_of_Z courseId;
     rq_return_url := frontendUrl w +:+ "/purchase/success";
     rq_cancel_url := frontendUrl w +:+ "/purchase/cancelled" |}.

(** The message id [createPurchaseOrder] keeps: the courier's answer, [null]
    when the courier throws. *)
Definition processing_message_id (w : world) (user_id : Z) (title : string)
    : option Z :=
  match processing_courier w user_id title with
  | Ok m => m
  | Err _ => None
  end.

(** The same world with another courier for purchase confirmations. *)
Definition with_confirmation_courier (w : world)
    (courier : Z → string → option Z → result unit) : world :=
  {| paypal_webhookId := paypal_webhookId w; nodeEnv := nodeEnv w;
     frontendUrl := frontendUrl w; config_yaml := config_yaml w;
     course_dir_exists := course_dir_exists w; now := now w;
     verifyWebhookSignature := verifyWebhookSignature w;
     captureOrder := captureOrder w; createOrder := createOrder w;
     confirmation_courier := courier;
     processing_courier := processing_courier w |}.

(** At most one row of [user_courses] for each (user, course). *)
Definition entitlements_unique (s : store) : Prop :=
  ∀ u c, (entitlement_count u c s ≤ 1)%nat.

(** Every row of [transactions] carries an upper-case currency. *)
Definition currencies_upper (s : store) : Prop :=
  ∀ r, r ∈ transactions s → Js.toUpperCase (tx_currency r) = tx_currency r.

(** The capture-completed event [handleCheckoutOrderApproved] builds from
    the approved order and the capture result. *)
Definition capture_event (event : webhook_event) (cr : capture_result)
    : webhook_event :=
  {| ev_id := ev_id event;
     event_type := "PAYMENT.CAPTURE.COMPLETED";
     resource :=
       {| rs_id := cr_captureId cr;
          rs_amount := Some {| currency_code := cr_currency cr;
                               value := cr_amount cr |};
          rs_custom_id := rs_custom_id (resource event);
          rs_order_id := rs_order_id (resource event) |} |}.

(** [example_world] with a payment provider that is down, with couriers
    that are down, and with a signature check that cannot be made. *)
Definition provider_error : error :=
  {| err_message := "PayPal API unavailable"; err_status := None |}.

Definition world_provider_down : world :=
  {| paypal_webhookId := paypal_webhookId example_world;
     nodeEnv := nodeEnv example_world;
     frontendUrl := frontendUrl example_world;
     config_yaml := config_yaml example_world;
     course_dir_exists := course_dir_exists example_world;
     now := now example_world;
     verifyWebhookSignature := λ _ _ _, Err provider_error;
     captureOrder := λ _, Err provider_error;
     createOrder := λ _, Err provider_error;
     confirmation_courier := confirmation_courier example_world;
     processing_courier := processing_courier example_world |}.

Definition courier_error : error :=
  {| err_message := "Telegram API unavailable"; err_status := None |}.

Definition world_courier_down : world :=
  {| paypal_webhookId := paypal_webhookId example_world;
     nodeEnv := nodeEnv example_world;
     frontendUrl := frontendUrl example_world;
     config_yaml := config_yaml example_world;
     course_dir_exists := course_dir_exists example_world;
     now := now example_world;
     verifyWebhookSignature := verifyWebhookSignature example_world;
     captureOrder := captureOrder example_world;
     createOrder := createOrder example_world;
     confirmation_courier := λ _ _ _, Err courier_error;
     processing_courier := λ _ _, Err courier_error |}.

(** What may have happened to a row of [transactions]: nothing, or it was
    pending and had its payment settled as [success]. *)
Definition row_kept (r r' : transaction) : Prop :=
  r' = r ∨
  (tx_status r = Pending ∧
   ∃ paymentId a currency, r' = set_payment Success paymentId a currency r).

(** Every row of the first table is still in its place in the second, as it
    was or settled. *)
Definition rows_kept (l l' : list transaction) : Prop :=
  ∀ k r, l !! k = Some r → ∃ r', l' !! k = Some r' ∧ row_kept r r'.

(** ** The configuration loader *)

(** [loadAppConfig] itself, with the module variables [cachedConfig] and
    [cachedPath] it keeps.  (The handlers above see it through [config_yaml]:
    what a call returns at that time.) *)
Module AppConfig.

(** What the loader reads from outside: [process.env.CONFIG_PATH]; the two
    paths [path.join(process.cwd(), 'config.yaml')] and
    [path.resolve(process.cwd(), '..', 'config.yaml')]; which files exist;
    and, for a path, what reading the file, parsing the YAML and checking it
    against [AppConfigSchema] gives: the configuration, or the error thrown. *)
Record files := {
  CONFIG_PATH : option string;
  cwdConfig : string;
  parentConfig : string;
  existsSync : string → bool;
  read_config : string → result app_config
}.

Record loader := {
  cachedConfig : option app_config;
  cachedPath : option string
}.

Definition initial : loader := {| cachedConfig := None; cachedPath := None |}.

(** [resolveConfigPath()] *)
Definition resolveConfigPath (f : files) : string :=
  match Js.truthy (CONFIG_PATH f) with
  | Some p => p
  | None =>
      if existsSync f (cwdConfig f) then cwdConfig f
      else if existsSync f (parentConfig f) then parentConfig f
      else cwdConfig f
  end.

(** [loadAppConfig()]: the result ([Err] when it throws) and the loader
    afterwards. *)
Definition loadAppConfig (f : files) (st : loader) : result app_config * loader :=
  let configPath := resolveConfigPath f in
  let load :=
    match read_config f configPath with
    | Ok data => (Ok data, {| cachedConfig := Some data; cachedPath := Some configPath |})
    | Err e => (Err e, st)
    end in
  match cachedConfig st with
  | Some cached =>
      if decide (cachedPath st = Some configPath) then (Ok cached, st) else load
  | None => load
  end.

(** [getCourseConfig(courseId)] *)
Definition getCourseConfig (f : files) (courseId : Z) (st : loader)
    : result (option course_config) * loader :=
  match loadAppConfig f st with
  | (Ok config, st') =>
      (Ok (find (λ c, bool_decide (cc_id c = courseId)) (courses config)), st')
  | (Err e, st') => (Err e, st')
  end.

(** The loader holds a configuration together with the path it came from. *)
Definition consistent (st : loader) : Prop :=
  is_Some (cachedConfig st) → is_Some (cachedPath st).

Definition example_files (content : result app_config) : files :=
  {| CONFIG_PATH := None; cwdConfig := "/srv/app/server/config.yaml";
     parentConfig := "/srv/app/config.yaml";
     existsSync := λ p, bool_decide (p = "/srv/app/config.yaml");
     read_config := λ p,
       if bool_decide (p = "/srv/app/config.yaml") then content
       else Err {| err_message := "ENOENT"; err_status := None |} |}.

End AppConfig.

(** ** Admin helpers and the favourite flag *)

Module Admin.

(** [parseDate(value)] *)
Definition parseDate (value : option string) : option string :=
  match Js.truthy value with
  | None => None
  | Some v =>
      let trimmed := Js.trim v in
      if Js.is_empty trimmed then None else Some trimmed
  end.

(** What [Number(x)] may be; finite numbers are read as exact rationals. *)
Inductive jsnumber :=
  | NaN
  | Infinity (negative : bool)
  | Finite (q : Q).

Definition isFinite (n : jsnumber) : option Q :=
  match n with
  | Finite q => Some q
  | _ => None
  end.

(** [Math.max] and [Math.min] of two finite numbers: one of the two. *)
Definition max (a b : Q) : Q := if Qle_bool a b then b else a.
Definition min (a b : Q) : Q := if Qle_bool a b then a else b.

Record pagination := {
  page : Q;
  limit : Q;
  offset : Q
}.

(** [parsePagination(req)], given [Number(req.query.page)] and
    [Number(req.query.limit)] for the parameters that are present ([None]
    for an absent one, which [??] replaces by 1 and by 20).  [page] and
    [limit] are exact in the source as they are here; the product for
    [offset] is rounded there. *)
Definition parsePagination (query_page query_limit : option jsnumber) : pagination :=
  let pageRaw := default (Finite 1) query_page in
  let limitRaw := default (Finite 20) query_limit in
  let page :=
    match isFinite pageRaw with Some q => max 1 q | None => 1%Q end in
  let limit :=
    match isFinite limitRaw with Some q => min 100 (max 10 q) | None => 20%Q end in
  {| page := page; limit := limit; offset := ((page - 1) * limit)%Q |}.

(** [Array.prototype.sort] with the comparator [(a, b) => a.id - b.id]: the
    stable sort by [id]; here by insertion, each element going before the
    first one of the sorted rest whose [id] is not smaller. *)
Fixpoint insert_by_id (x : Z * string) (l : list (Z * string)) : list (Z * string) :=
  match l with
  | [] => [x]
  | y :: l' => if x.1 <=? y.1 then x :: l else y :: insert_by_id x l'
  end.

Definition sort_by_id (l : list (Z * string)) : list (Z * string) :=
  foldr insert_by_id [] l.

(** [listAvailableCourses()]: the courses of [config.yaml] as (id, title),
    sorted by id; the empty list when loading throws.  (Ids are integers, so
    the [Number.isFinite] filter keeps them all.) *)
Definition listAvailableCourses (w : world) : M (list (Z * string)) :=
  try_catch
    (config <- loadAppConfig w ;;
     let courses := (λ course, (cc_id course, cc_title course)) <$> courses config in
     ret (sort_by_id courses))
    (λ _, ret []).

End Admin.

(** [UPDATE user_courses SET is_favorite = NOT is_favorite
     WHERE user_id = ? AND course_id = ?] *)
Definition toggle_row (userId courseId : Z) (r : entitlement) : entitlement :=
  if decide (uc_user_id r = userId ∧ uc_course_id r = courseId)
  then {| uc_id := uc_id r; uc_user_id := uc_user_id r;
          uc_course_id := uc_course_id r;
          uc_is_favorite := negb (uc_is_favorite r);
          uc_purchased_at := uc_purchased_at r |}
  else r.

Inductive favorite_reply :=
  | FavoriteJson (isFavorite : bool)   (* { success: true, data: { isFavorite } } *)
  | FavoriteNext (e : error).

(** [toggleFavorite(req, res, next)] of the user controller, for the
    authenticated user and the text of [req.params.id]. *)
Definition toggleFavorite (user_id : Z) (param_id : string) : M favorite_reply :=
  try_catch
    (match Js.parseInt10 param_id with
     | None => throw (createError "Invalid course ID" 400)
     | Some courseId =>
         (* Toggle favorite *)
         modify (set_user_courses (fmap (toggle_row user_id courseId))) ;;
         (* Get new status *)
         s <- get_store ;;
         let result := select_user_courses user_id courseId s in
         (* Invalidate cache *)
         cache_del (CACHE_KEYS.USER_COURSES user_id) ;;
         ret (FavoriteJson (default false (uc_is_favorite <$> head result)))
     end)
    (λ e, ret (FavoriteNext e)).

(** * Properties *)

(** ** Strings *)

Lemma upper_char_idem c : Js.upper_char (Js.upper_char c) = Js.upper_char c.
Proof. destruct c as [[] [] [] [] [] [] [] []]; reflexivity. Qed.

Lemma toUpperCase_idem s : Js.toUpperCase (Js.toUpperCase s) = Js.toUpperCase s.
Proof.
  induction s as [|c s IH]; simpl; [reflexivity|].
  by rewrite upper_char_idem, IH.
Qed.

(** [normalizeCurrency(undefined, c)] only puts [c] in upper case. *)
Lemma normalizeCurrency_absent fb : normalizeCurrency None fb = Js.toUpperCase fb.
Proof. reflexivity. Qed.

Lemma normalizeCurrency_idem_absent v fb :
  normalizeCurrency None (normalizeCurrency v fb) = normalizeCurrency v fb.
Proof. unfold normalizeCurrency. simpl. apply toUpperCase_idem. Qed.

(** The cases of [currency.test.ts]. *)
Example normalizeCurrency_provided :
  normalizeCurrency (Some "usd") "EUR" = "USD" ∧
  normalizeCurrency (Some "  gbp  ") "EUR" = "GBP".
Proof. split; reflexivity. Qed.

Example normalizeCurrency_missing :
  normalizeCurrency (Some "") "EUR" = "EUR" ∧
  normalizeCurrency None "EUR" = "EUR".
Proof. split; reflexivity. Qed.

(** ** Custom id parsing *)

Lemma span_digits_all d :
  all_digits d = true → Js.span_digits d = (d, EmptyString).
Proof.
  induction d as [|c d IH]; simpl; [reflexivity|].
  intros [Hc Hd]%andb_prop. rewrite Hc, (IH Hd). reflexivity.
Qed.

Lemma span_digits_stop d c r :
  all_digits d = true → Js.is_digit c = false →
  Js.span_digits (d +:+ String c r) = (d, String c r).
Proof.
  intros Hd Hc. induction d as [|a d IH]; simpl.
  - by rewrite Hc.
  - simpl in Hd. apply andb_prop in Hd as [Ha Hd].
    rewrite Ha, (IH Hd). reflexivity.
Qed.

Lemma strip_prefix_append p s : Js.strip_prefix p (p +:+ s) = Some s.
Proof.
  induction p as [|a p IH]; simpl; [reflexivity|].
  by rewrite Ascii.eqb_refl.
Qed.

Lemma match_custom_id_here_exact du dc :
  all_digits du = true → all_digits dc = true →
  Js.is_empty du = false → Js.is_empty dc = false →
  match_custom_id_here ("user_" +:+ du +:+ "_course_" +:+ dc) = Some (du, dc).
Proof.
  intros Hu Hc Eu Ec. unfold match_custom_id_here.
  rewrite strip_prefix_append.
  change ("_course_" +:+ dc) with (String "_" ("course_" +:+ dc)).
  rewrite (span_digits_stop du "_" _ Hu eq_refl), Eu.
  change (String "_" ("course_" +:+ dc)) with ("_course_" +:+ dc).
  rewrite strip_prefix_append, (span_digits_all dc Hc), Ec. reflexivity.
Qed.

Lemma match_custom_id_first s g :
  match_custom_id_here s = Some g → match_custom_id s = Some g.
Proof. intros H. destruct s; cbn [match_custom_id]; by rewrite H. Qed.

Lemma digit_not_space_or_sign c :
  Js.is_digit c = true →
  Js.is_space c = false ∧ c ≠ "-"%char ∧ c ≠ "+"%char.
Proof. destruct c as [[] [] [] [] [] [] [] []]; cbv; try done; intuition done. Qed.

(** On a non-empty string of digits [parseInt(d, 10)] is the number the
    digits spell: what the handlers compute from a captured group. *)
Lemma parseInt10_digits d :
  all_digits d = true → Js.is_empty d = false →
  Js.parseInt10 d = Some (Js.digits_value d).
Proof.
  intros Hd Hne. destruct d as [|c d]; [done|].
  pose proof Hd as [Hc _]%andb_prop.
  destruct (digit_not_space_or_sign c Hc) as (Hsp & Hm & Hp).
  unfold Js.parseInt10. cbn [Js.trim_start]. rewrite Hsp.
  assert ((match String c d with
           | String "-" r => (true, r)
           | String "+" r => (false, r)
           | _ => (false, String c d)
           end) = (false, String c d)) as ->.
  { destruct c as [[] [] [] [] [] [] [] []]; done. }
  by rewrite (span_digits_all _ Hd).
Qed.

(** A custom id of the exact form parses to the two numbers it spells. *)
Lemma parse_custom_id_exact du dc :
  all_digits du = true → all_digits dc = true →
  Js.is_empty du = false → Js.is_empty dc = false →
  parse_custom_id ("user_" +:+ du +:+ "_course_" +:+ dc)
  = Some (Js.digits_value du, Js.digits_value dc).
Proof.
  intros Hu Hc Eu Ec. unfold parse_custom_id.
  by rewrite (match_custom_id_first _ _ (match_custom_id_here_exact du dc Hu Hc Eu Ec)).
Qed.

Lemma exact_custom_id_form_parses customId :
  exact_custom_id_form customId → is_Some (parse_custom_id customId).
Proof.
  intros (du & dc & Hu & Hc & Eu & Ec & ->).
  rewrite parse_custom_id_exact by done. by eexists.
Qed.

Lemma exact_custom_id_form_here customId :
  exact_custom_id_form customId →
  ∃ du dc, match_custom_id_here customId = Some (du, dc) ∧
           customId = "user_" +:+ du +:+ "_course_" +:+ dc.
Proof.
  intros (du & dc & Hu & Hc & Eu & Ec & ->). exists du, dc.
  by rewrite match_custom_id_here_exact.
Qed.











Example parse_custom_id_scenario : parse_custom_id "user_42_course_7" = Some (42, 7).
Proof. reflexivity. Qed.

Example parse_custom_id_no_course : parse_custom_id "user_42_course_" = None.
Proof. reflexivity. Qed.

Example parse_custom_id_leading_zeros :
  parse_custom_id "user_007_course_010" = Some (7, 10).
Proof. reflexivity. Qed.

(** ** The capture-completed handler, case by case *)

Ltac unfold_handler :=
  unfold bind, ret, throw, try_catch, modify, get_store, await, cache_del,
    run_store, run_outcome in *.

Lemma event_ids_Some event u c :
  event_ids event = Some (u, c) →
  ∃ customId, Js.truthy (rs_custom_id (resource event)) = Some customId ∧
              parse_custom_id customId = Some (u, c).
Proof.
  unfold event_ids. destruct (Js.truthy _) as [cid|]; simpl; [|done].
  intros H. by exists cid.
Qed.

Lemma event_ids_None event :
  event_ids event = None →
  Js.truthy (rs_custom_id (resource event)) = None ∨
  ∃ customId, Js.truthy (rs_custom_id (resource event)) = Some customId ∧
              parse_custom_id customId = None.
Proof.
  unfold event_ids. destruct (Js.truthy _) as [cid|]; simpl; [|by left].
  intros H. right. by exists cid.
Qed.

Lemma loadCourseMetadata_available w c cfg cc s :
  course_available w c cfg cc →
  loadCourseMetadata w c s =
  (Done (Some {| meta_title := cc_title cc; meta_price := cc_price cc;
                 meta_currency :=
                   normalizeCurrency (cc_currency cc) (app_defaultCurrency cfg) |}), s).
Proof.
  intros (_ & Hcfg & Hfind).
  unfold loadCourseMetadata, getCourseConfig, loadAppConfig. unfold_handler.
  rewrite Hcfg. simpl. by rewrite Hfind.
Qed.

Lemma resolvePaypalCurrency_loaded w cfg v s :
  config_yaml w = Ok cfg →
  resolvePaypalCurrency w v s =
  (Done (normalizeCurrency v
           (normalizeCurrency (payments_paypal_currency cfg)
              (app_defaultCurrency cfg))), s).
Proof.
  intros Hcfg. unfold resolvePaypalCurrency, loadAppConfig. unfold_handler.
  by rewrite Hcfg.
Qed.

(** Loading metadata or resolving a currency never touches the store. *)
Lemma loadCourseMetadata_store w c s : snd (loadCourseMetadata w c s) = s.
Proof.
  unfold loadCourseMetadata, getCourseConfig, loadAppConfig. unfold_handler.
  destruct (config_yaml w); simpl; [|done]. by destruct (find _ _).
Qed.

Lemma resolvePaypalCurrency_store w v s : snd (resolvePaypalCurrency w v s) = s.
Proof.
  unfold resolvePaypalCurrency, loadAppConfig. unfold_handler.
  by destruct (config_yaml w).
Qed.

(** A capture-completed event without a usable custom id is dropped. *)
Lemma completed_dropped w event s :
  event_ids event = None →
  handlePaymentCaptureCompleted w event s = (Done tt, s).
Proof.
  intros [H | (cid & H & Hp)]%event_ids_None;
    unfold handlePaymentCaptureCompleted; rewrite H; [done|]. by rewrite Hp.
Qed.

(** When the entitlement is already there the handler stops before any write,
    whatever the world looks like. *)
Lemma completed_entitled_store w event u c s :
  event_ids event = Some (u, c) →
  select_user_courses u c s ≠ [] →
  run_store (handlePaymentCaptureCompleted w event) s = s.
Proof.
  intros (cid & H & Hp)%event_ids_Some Hex.
  unfold handlePaymentCaptureCompleted, run_store. rewrite H, Hp.
  destruct (course_dir_exists w c); simpl; [|done].
  unfold bind at 1.
  pose proof (loadCourseMetadata_store w c s) as Hm.
  destruct (loadCourseMetadata w c s) as [[[meta|]|e] s'];
    simpl in Hm; subst s'; try done.
  unfold bind at 1.
  pose proof (resolvePaypalCurrency_store w (Some (meta_currency meta)) s) as Hr.
  destruct (resolvePaypalCurrency w (Some (meta_currency meta)) s) as [[cur|e] s'];
    simpl in Hr; subst s'; try done.
  unfold bind at 1, get_store.
  destruct (select_user_courses u c s); [done|]. reflexivity.
Qed.

(** The store after a grant, table by table. *)
Lemma completed_grant w event u c cfg cc s :
  event_ids event = Some (u, c) →
  course_available w c cfg cc →
  select_user_courses u c s = [] →
  ∃ s', handlePaymentCaptureCompleted w event s = (Done tt, s') ∧
    user_courses s' = user_courses s ++ [granted_entitlement w u c s] ∧
    transactions s' =
      match pending_for event u c s with
      | Some p =>
          update_where_id (tx_id p)
            (set_payment Success (rs_id (resource event))
               (payment_amount event cc) (payment_currency event cfg cc))
          <$> transactions s
      | None => transactions s ++ [granted_transaction w event u c cfg cc s]
      end ∧
    redis s' =
      delete (CACHE_KEYS.USER u) <$> (delete (CACHE_KEYS.USER_COURSES u) <$> redis s) ∧
    confirmations s' =
      confirmations s ++
        [(u, cc_title cc, pending_for event u c s ≫= tx_notification_message_id)] ∧
    processing_notices s' = processing_notices s ∧
    provider_orders s' = provider_orders s ∧
    provider_captures s' = provider_captures s.
Proof.
  intros (cid & H & Hp)%event_ids_Some Hav Hex.
  unfold handlePaymentCaptureCompleted. rewrite H, Hp.
  pose proof Hav as (Hdir & Hcfg & Hfind).
  rewrite Hdir. simpl.
  unfold bind at 1. rewrite (loadCourseMetadata_available w c cfg cc s Hav).
  unfold bind at 1. rewrite (resolvePaypalCurrency_loaded w cfg _ s Hcfg).
  unfold bind at 1, get_store. rewrite Hex. simpl.
  unfold pending_for, sendPurchaseConfirmationNotification.
  fold (course_currency cfg cc).
  destruct (Js.truthy (rs_order_id (resource event))) as [oid|]; simpl.
  - unfold select_pending. unfold_handler. simpl.
    destruct (latest _) as [p|]; simpl;
      destruct (confirmation_courier w _ _ _) as [[]|?]; simpl;
      eexists; (split; [reflexivity|]); simpl; done.
  - unfold_handler. simpl.
    destruct (confirmation_courier w _ _ _) as [[]|?]; simpl;
      eexists; (split; [reflexivity|]); simpl; done.
Qed.

(** ** Tables *)

Lemma next_id_fresh ids x : x ∈ ids → x < next_id ids.
Proof.
  unfold next_id. induction ids as [|y ids IH]; simpl.
  - by intros ?%elem_of_nil.
  - intros [->|Hx]%elem_of_cons; [lia|]. specialize (IH Hx). lia.
Qed.

Lemma next_id_not_in ids : next_id ids ∉ ids.
Proof. intros H%next_id_fresh. lia. Qed.

Lemma NoDup_snoc_next_id ids : NoDup ids → NoDup (ids ++ [next_id ids]).
Proof.
  intros Hnd. apply NoDup_app. split; [done|]. split.
  - intros x Hx ->%list_elem_of_singleton. by apply (next_id_not_in ids).
  - apply NoDup_singleton.
Qed.

Lemma latest_elem rows p : latest rows = Some p → p ∈ rows.
Proof.
  revert p. induction rows as [|r rows IH]; simpl; [done|].
  intros p. destruct (latest rows) as [r'|].
  - destruct (tx_created_at r <? tx_created_at r'); intros [= <-].
    + right. by apply IH.
    + left.
  - intros [= <-]. left.
Qed.

Lemma latest_None rows : latest rows = None → rows = [].
Proof.
  destruct rows as [|r rows]; simpl; [done|].
  destruct (latest rows) as [r'|]; [|done].
  by destruct (tx_created_at r <? tx_created_at r').
Qed.

(** The row that [SELECT ... LIMIT 1] returns is a row of the table that
    meets the [WHERE] clause; there is one as soon as some row meets it. *)
Lemma select_pending_Some u c o s p :
  select_pending u c o s = Some p →
  p ∈ transactions s ∧ matches_pending u c o p.
Proof. intros H%latest_elem. by apply list_elem_of_filter in H as [? ?]. Qed.

Lemma select_pending_None u c o s :
  select_pending u c o s = None →
  ∀ r, r ∈ transactions s → ¬ matches_pending u c o r.
Proof.
  intros H%latest_None r Hr Hm.
  assert (r ∈ filter (matches_pending u c o) (transactions s)) as Hin
    by (by apply list_elem_of_filter).
  rewrite H in Hin. by apply elem_of_nil in Hin.
Qed.

Lemma select_pending_is_Some u c o s r :
  r ∈ transactions s → matches_pending u c o r →
  is_Some (select_pending u c o s).
Proof.
  intros Hr Hm. destruct (select_pending u c o s) eqn:E; [by eexists|].
  exfalso. by apply (select_pending_None _ _ _ _ E r).
Qed.

Section UpdateById.

Variables (i : Z) (f : transaction → transaction).
Hypothesis f_id : ∀ r, tx_id (f r) = tx_id r.

Lemma update_where_id_ids (l : list transaction) :
  tx_id <$> (update_where_id i f <$> l) = tx_id <$> l.
Proof.
  induction l as [|r l IH]; csimpl; [done|]. rewrite IH. f_equal.
  unfold update_where_id. destruct (decide _); [apply f_id|done].
Qed.

Lemma update_where_id_absent (l : list transaction) :
  i ∉ tx_id <$> l → update_where_id i f <$> l = l.
Proof.
  induction l as [|r l IH]; csimpl; [done|].
  intros [Hr Hl]%not_elem_of_cons. rewrite (IH Hl). f_equal.
  unfold update_where_id. by destruct (decide _).
Qed.

(** With [id] a key, turning the one row [p] from another status into [st]
    adds one row to those with status [st]. *)
Lemma update_where_id_count st (l : list transaction) p :
  NoDup (tx_id <$> l) → p ∈ l → tx_id p = i →
  tx_status p ≠ st → tx_status (f p) = st →
  length (filter (λ r, tx_status r = st) (update_where_id i f <$> l))
  = S (length (filter (λ r, tx_status r = st) l)).
Proof.
  intros Hnd Hp Hi Hne Hst.
  induction l as [|r l IH]; [by apply elem_of_nil in Hp|].
  rewrite fmap_cons in Hnd. apply NoDup_cons in Hnd as [Hr Hnd].
  apply elem_of_cons in Hp as [<-|Hp].
  - rewrite fmap_cons, (update_where_id_absent l) by (by rewrite <- Hi).
    unfold update_where_id. rewrite decide_True by done.
    rewrite filter_cons_True by done.
    by rewrite filter_cons_False by done.
  - assert (tx_id r ≠ i) as Hri.
    { intros E. apply Hr. rewrite E, <- Hi. by apply list_elem_of_fmap_2. }
    rewrite fmap_cons. unfold update_where_id at 1. rewrite decide_False by done.
    rewrite !filter_cons. destruct (decide (tx_status r = st)); simpl;
      by rewrite (IH Hnd Hp).
Qed.

End UpdateById.

Lemma set_payment_id st pid a cur r : tx_id (set_payment st pid a cur r) = tx_id r.
Proof. reflexivity. Qed.

(** ** Replayed capture-completed events *)

(** Either the handler leaves the store alone, or it is in the granting case. *)
Lemma completed_store_cases w event s :
  run_store (handlePaymentCaptureCompleted w event) s = s ∨
  ∃ u c cfg cc, event_ids event = Some (u, c) ∧ course_available w c cfg cc ∧
                select_user_courses u c s = [].
Proof.
  destruct (event_ids event) as [[u c]|] eqn:Hids.
  2: { left. unfold run_store. by rewrite completed_dropped. }
  destruct (select_user_courses u c s) as [|e l] eqn:Hex.
  2: { left. apply (completed_entitled_store w event u c); [done|]. by rewrite Hex. }
  destruct (course_dir_exists w c) eqn:Hdir.
  2: { left. apply event_ids_Some in Hids as (cid & H & Hp).
       unfold handlePaymentCaptureCompleted, run_store. by rewrite H, Hp, Hdir. }
  destruct (config_yaml w) as [cfg|err] eqn:Hcfg.
  2: { left. apply event_ids_Some in Hids as (cid & H & Hp).
       unfold handlePaymentCaptureCompleted, run_store. rewrite H, Hp, Hdir. simpl.
       unfold loadCourseMetadata, loadAppConfig. unfold_handler. by rewrite Hcfg. }
  destruct (find (λ c0, bool_decide (cc_id c0 = c)) (courses cfg)) as [cc|] eqn:Hfind.
  2: { left. apply event_ids_Some in Hids as (cid & H & Hp).
       unfold handlePaymentCaptureCompleted, run_store. rewrite H, Hp, Hdir. simpl.
       unfold loadCourseMetadata, getCourseConfig, loadAppConfig. unfold_handler.
       rewrite Hcfg. simpl. by rewrite Hfind. }
  right. by exists u, c, cfg, cc.
Qed.

(** After a grant the pair is entitled exactly once. *)
Lemma completed_grant_entitlement w event u c cfg cc s :
  event_ids event = Some (u, c) →
  course_available w c cfg cc →
  select_user_courses u c s = [] →
  select_user_courses u c (run_store (handlePaymentCaptureCompleted w event) s)
  = [granted_entitlement w u c s].
Proof.
  intros Hids Hav Hex.
  destruct (completed_grant w event u c cfg cc s Hids Hav Hex)
    as (s' & Hrun & Huc & _).
  unfold run_store. rewrite Hrun. simpl.
  unfold select_user_courses in *. rewrite Huc, filter_app, Hex. simpl.
  by rewrite filter_cons_True, filter_nil by done.
Qed.

Lemma pending_for_Some event u c s p :
  pending_for event u c s = Some p →
  p ∈ transactions s ∧ tx_status p = Pending ∧
  ∃ orderId, Js.truthy (rs_order_id (resource event)) = Some orderId ∧
             matches_pending u c orderId p.
Proof.
  unfold pending_for. destruct (Js.truthy _) as [oid|]; simpl; [|done].
  intros [Hin Hm]%select_pending_Some. split; [done|]. split.
  - apply Hm.
  - by exists oid.
Qed.

(** After a grant there is one more [success] row, provided ids are unique. *)
Lemma completed_grant_success_rows w event u c cfg cc s :
  event_ids event = Some (u, c) →
  course_available w c cfg cc →
  select_user_courses u c s = [] →
  tx_ids_unique s →
  length (rows_with_status Success
            (run_store (handlePaymentCaptureCompleted w event) s))
  = S (length (rows_with_status Success s)).
Proof.
  intros Hids Hav Hex Hnd.
  destruct (completed_grant w event u c cfg cc s Hids Hav Hex)
    as (s' & Hrun & _ & Htx & _).
  unfold run_store. rewrite Hrun. simpl. unfold rows_with_status. rewrite Htx.
  destruct (pending_for event u c s) as [p|] eqn:Hp.
  - apply pending_for_Some in Hp as (Hin & Hst & _).
    apply (update_where_id_count (tx_id p) _ Success _ p);
      try done. by rewrite Hst.
  - rewrite filter_app, length_app.
    rewrite filter_cons_True, filter_nil by done. simpl. lia.
Qed.

(** C1. Delivering the same capture-completed event twice: when the first
    delivery grants access (the custom id parses to [(u, c)], the course is
    available and the pair is not yet entitled), then after the second
    delivery the pair has exactly one entitlement row, the table has exactly
    one more [success] row and exactly one confirmation was attempted; the
    second delivery changes nothing at all, in whatever world it arrives. *)
Theorem capture_completed_delivered_twice w1 w2 event u c cfg cc s :
  event_ids event = Some (u, c) →
  course_available w1 c cfg cc →
  entitlement_count u c s = 0%nat →
  tx_ids_unique s →
  let s1 := run_store (handlePaymentCaptureCompleted w1 event) s in
  let s2 := run_store (handlePaymentCaptureCompleted w2 event) s1 in
  entitlement_count u c s2 = 1%nat ∧
  length (rows_with_status Success s2) = S (length (rows_with_status Success s)) ∧
  (∃ m, confirmations s2 = confirmations s ++ [(u, cc_title cc, m)]) ∧
  s2 = s1.
Proof.
  intros Hids Hav Hex Hnd s1 s2.
  apply length_zero_iff_nil in Hex.
  pose proof (completed_grant_entitlement w1 event u c cfg cc s Hids Hav Hex) as Hent.
  fold s1 in Hent.
  assert (s2 = s1) as ->.
  { apply (completed_entitled_store w2 event u c); [done|]. by rewrite Hent. }
  split; [|split; [|split]].
  - unfold entitlement_count. by rewrite Hent.
  - by apply (completed_grant_success_rows w1 event u c cfg cc).
  - destruct (completed_grant w1 event u c cfg cc s Hids Hav Hex)
      as (s' & Hrun & _ & _ & _ & Hconf & _).
    subst s1. unfold run_store. rewrite Hrun. simpl. by eexists.
  - reflexivity.
Qed.

Lemma capture_completed_delivered_twice_witness :
  let event := completed_event (Some "user_1_course_2") (Some "ORDER1")
                 (Some {| currency_code := "usd"; value := "19.99" |}) in
  let s := example_store [] [example_pending] in
  let s1 := run_store (handlePaymentCaptureCompleted example_world event) s in
  let s2 := run_store (handlePaymentCaptureCompleted example_world event) s1 in
  entitlement_count 1 2 s2 = 1%nat ∧
  length (rows_with_status Success s2) = S (length (rows_with_status Success s)) ∧
  (∃ m, confirmations s2 = confirmations s ++ [(1, cc_title example_course, m)]) ∧
  s2 = s1.
Proof.
  apply (capture_completed_delivered_twice example_world example_world _ 1 2
           example_config example_course).
  - reflexivity.
  - repeat split.
  - reflexivity.
  - apply NoDup_singleton.
Defined.

(** X17. The capture-completed handler is idempotent without any condition:
    the same event run twice in one world leaves the store it leaves when
    run once, whatever the event (well-formed or not) and the store. *)
Lemma capture_completed_idempotent w event s :
  run_store (handlePaymentCaptureCompleted w event)
    (run_store (handlePaymentCaptureCompleted w event) s)
  = run_store (handlePaymentCaptureCompleted w event) s.
Proof.
  destruct (completed_store_cases w event s)
    as [Hsame | (u & c & cfg & cc & Hids & Hav & Hex)].
  - by rewrite !Hsame.
  - apply (completed_entitled_store w event u c); [done|].
    by rewrite (completed_grant_entitlement w event u c cfg cc s).
Qed.

(** C4, as the code has it. When the pair is already entitled the handler
    stops at the duplicate-grant check: the store is left as it was, so no
    entitlement is inserted and no reconciliation is attempted, and a
    matching pending transaction is still the pending one afterwards. *)
Theorem capture_completed_entitled_stops w event u c s :
  event_ids event = Some (u, c) →
  entitlement_count u c s ≠ 0%nat →
  let s' := run_store (handlePaymentCaptureCompleted w event) s in
  s' = s ∧
  ∀ orderId p, select_pending u c orderId s = Some p →
               select_pending u c orderId s' = Some p ∧ tx_status p = Pending.
Proof.
  intros Hids Hex s'.
  assert (s' = s) as ->.
  { apply (completed_entitled_store w event u c); [done|].
    intros E. apply Hex. unfold entitlement_count. by rewrite E. }
  split; [done|]. intros o p Hp. split; [done|].
  apply select_pending_Some in Hp as [_ Hm]. apply Hm.
Qed.

Lemma capture_completed_entitled_stops_witness :
  let event := completed_event (Some "user_1_course_2") (Some "ORDER1") None in
  let s := example_store [example_entitlement] [example_pending] in
  let s' := run_store (handlePaymentCaptureCompleted example_world event) s in
  s' = s ∧
  ∀ orderId p, select_pending 1 2 orderId s = Some p →
               select_pending 1 2 orderId s' = Some p ∧ tx_status p = Pending.
Proof.
  apply (capture_completed_entitled_stops example_world _ 1 2).
  - reflexivity.
  - vm_compute. lia.
Defined.

(** C4, as stated, fails: user 1 is entitled to course 2 and has a pending
    transaction for order ORDER1; the capture-completed event for that order
    leaves the transaction pending. *)
Lemma capture_completed_entitled_leaves_pending :
  let event := completed_event (Some "user_1_course_2") (Some "ORDER1") None in
  let s := example_store [example_entitlement] [example_pending] in
  let s' := run_store (handlePaymentCaptureCompleted example_world event) s in
  event_ids event = Some (1, 2) ∧
  entitlement_count 1 2 s = 1%nat ∧
  select_pending 1 2 "ORDER1" s = Some example_pending ∧
  tx_status <$> transactions s' = [Pending] ∧
  rows_with_status Success s' = [].
Proof. repeat split. Qed.

(** ** Reconciliation with the pending transaction *)

(** C3. When the handler grants access: if some row of [transactions]
    matches (user, course, pending, payment id = the event's order id), then
    one such row [p] is the one updated: the table keeps its length, the
    row at [p]'s place keeps its id, user and course and now has status
    [success] and the capture id as payment id, and rows with another id
    are untouched; if no row matches (or the event has no order id), the
    table is the old one followed by exactly one new [success] row. *)
Theorem capture_completed_reconciles w event u c cfg cc s :
  event_ids event = Some (u, c) →
  course_available w c cfg cc →
  entitlement_count u c s = 0%nat →
  let s' := run_store (handlePaymentCaptureCompleted w event) s in
  let captureId := rs_id (resource event) in
  (∀ orderId r,
     Js.truthy (rs_order_id (resource event)) = Some orderId →
     r ∈ transactions s → matches_pending u c orderId r →
     ∃ p, p ∈ transactions s ∧ matches_pending u c orderId p ∧
       length (transactions s') = length (transactions s) ∧
       (∀ k, transactions s !! k = Some p →
          ∃ p', transactions s' !! k = Some p' ∧
                tx_id p' = tx_id p ∧ tx_user_id p' = u ∧
                tx_course_id p' = Some c ∧ tx_status p' = Success ∧
                tx_payment_id p' = captureId) ∧
       (∀ k r', transactions s !! k = Some r' → tx_id r' ≠ tx_id p →
          transactions s' !! k = Some r'))
  ∧
  ((∀ orderId, Js.truthy (rs_order_id (resource event)) = Some orderId →
      ∀ r, r ∈ transactions s → ¬ matches_pending u c orderId r) →
   ∃ r, transactions s' = transactions s ++ [r] ∧
        tx_user_id r = u ∧ tx_course_id r = Some c ∧
        tx_status r = Success ∧ tx_type r = Purchase ∧
        tx_payment_id r = captureId).
Proof.
  intros Hids Hav Hex%length_zero_iff_nil s' captureId.
  destruct (completed_grant w event u c cfg cc s Hids Hav Hex)
    as (s1 & Hrun & _ & Htx & _).
  assert (s' = s1) as -> by (unfold s', run_store; by rewrite Hrun).
  clear Hrun. split.
  - intros oid r Hoid Hr Hm.
    destruct (select_pending_is_Some u c oid s r Hr Hm) as [p Hp].
    unfold pending_for in Htx. rewrite Hoid in Htx. simpl in Htx.
    rewrite Hp in Htx. apply select_pending_Some in Hp as [Hin Hmp].
    exists p. split; [done|]. split; [done|]. rewrite Htx. split.
    + by rewrite length_fmap.
    + split.
      * intros k Hk. eexists. rewrite list_lookup_fmap, Hk. simpl.
        unfold update_where_id. rewrite decide_True by done. split; [done|].
        destruct Hmp as (Hu & Hc & _). by simpl.
      * intros k r' Hk Hne. rewrite list_lookup_fmap, Hk. simpl.
        unfold update_where_id. by rewrite decide_False.
  - intros Hnone.
    assert (pending_for event u c s = None) as Hpf.
    { unfold pending_for. destruct (Js.truthy _) as [oid|] eqn:Hoid; [|done].
      simpl. destruct (select_pending u c oid s) as [p|] eqn:Hp; [|done].
      apply select_pending_Some in Hp as [Hin Hmp].
      by destruct (Hnone oid eq_refl p Hin). }
    rewrite Hpf in Htx. eexists. split; [exact Htx|]. done.
Qed.

Lemma capture_completed_reconciles_witness :
  let event := completed_event (Some "user_1_course_2") (Some "ORDER1") None in
  let s := example_store [] [example_pending] in
  let s' := run_store (handlePaymentCaptureCompleted example_world event) s in
  let captureId := rs_id (resource event) in
  (∀ orderId r,
     Js.truthy (rs_order_id (resource event)) = Some orderId →
     r ∈ transactions s → matches_pending 1 2 orderId r →
     ∃ p, p ∈ transactions s ∧ matches_pending 1 2 orderId p ∧
       length (transactions s') = length (transactions s) ∧
       (∀ k, transactions s !! k = Some p →
          ∃ p', transactions s' !! k = Some p' ∧
                tx_id p' = tx_id p ∧ tx_user_id p' = 1 ∧
                tx_course_id p' = Some 2 ∧ tx_status p' = Success ∧
                tx_payment_id p' = captureId) ∧
       (∀ k r', transactions s !! k = Some r' → tx_id r' ≠ tx_id p →
          transactions s' !! k = Some r'))
  ∧
  ((∀ orderId, Js.truthy (rs_order_id (resource event)) = Some orderId →
      ∀ r, r ∈ transactions s → ¬ matches_pending 1 2 orderId r) →
   ∃ r, transactions s' = transactions s ++ [r] ∧
        tx_user_id r = 1 ∧ tx_course_id r = Some 2 ∧
        tx_status r = Success ∧ tx_type r = Purchase ∧
        tx_payment_id r = captureId).
Proof.
  apply (capture_completed_reconciles example_world _ 1 2
           example_config example_course).
  - reflexivity.
  - repeat split.
  - reflexivity.
Defined.

(** The scenarios of the specification: order ORDER1 is pending, the
    capture CAP123 arrives for it, and the same row becomes [success]. *)
Example reconcile_order1 :
  let event := completed_event (Some "user_1_course_2") (Some "ORDER1")
                 (Some {| currency_code := "usd"; value := "19.99" |}) in
  transactions
    (run_store (handlePaymentCaptureCompleted example_world event)
       (example_store [] [example_pending]))
  = [ set_payment Success "CAP123" (AmountText "19.99") "USD" example_pending ].
Proof. reflexivity. Qed.

(** Without a pending row the handler inserts exactly one [success] row. *)
Example fallback_insert :
  let event := completed_event (Some "user_1_course_2") (Some "ORDER1")
                 (Some {| currency_code := "usd"; value := "19.99" |}) in
  (λ r, (tx_id r, tx_payment_id r, tx_status r)) <$>
  transactions
    (run_store (handlePaymentCaptureCompleted example_world event)
       (example_store [] []))
  = [ (1, "CAP123", Success) ].
Proof. reflexivity. Qed.

(** C10. A capture-completed event without an amount: the [success] row
    the handler records carries the course price (as a number) and the
    resolved course currency; every row that was not in the table before
    is such a row. *)
Theorem capture_completed_without_amount w event u c cfg cc s :
  event_ids event = Some (u, c) →
  course_available w c cfg cc →
  entitlement_count u c s = 0%nat →
  rs_amount (resource event) = None →
  let s' := run_store (handlePaymentCaptureCompleted w event) s in
  let recorded (r : transaction) :=
    tx_status r = Success ∧ tx_payment_id r = rs_id (resource event) ∧
    tx_amount r = AmountNumber (cc_price cc) ∧
    tx_currency r = course_currency cfg cc in
  (∃ r, r ∈ transactions s' ∧ recorded r) ∧
  (∀ r, r ∈ transactions s' → r ∈ transactions s ∨ recorded r).
Proof.
  intros Hids Hav Hex%length_zero_iff_nil Hamt s' recorded.
  destruct (completed_grant w event u c cfg cc s Hids Hav Hex)
    as (s1 & Hrun & _ & Htx & _).
  assert (s' = s1) as -> by (unfold s', run_store; by rewrite Hrun).
  clear Hrun.
  assert (payment_amount event cc = AmountNumber (cc_price cc)) as Ha.
  { unfold payment_amount, amount_or. by rewrite Hamt. }
  assert (payment_currency event cfg cc = course_currency cfg cc) as Hc.
  { unfold payment_currency, event_currency_code. rewrite Hamt. simpl.
    unfold course_currency. apply normalizeCurrency_idem_absent. }
  rewrite Ha, Hc in Htx. unfold granted_transaction in Htx.
  rewrite Ha, Hc in Htx. rewrite Htx.
  destruct (pending_for event u c s) as [p|] eqn:Hp.
  - apply pending_for_Some in Hp as (Hin & _). split.
    + eexists. split.
      * apply list_elem_of_fmap_2, Hin.
      * unfold update_where_id. rewrite decide_True by done. by unfold recorded.
    + intros r (r0 & -> & Hr0)%list_elem_of_fmap. unfold update_where_id.
      destruct (decide _); [right|by left]. by unfold recorded.
  - split.
    + eexists. split; [apply elem_of_app; right; apply list_elem_of_singleton; done|].
      by unfold recorded.
    + intros r [Hr | ->%list_elem_of_singleton]%elem_of_app; [by left|right].
      by unfold recorded.
Qed.

Lemma capture_completed_without_amount_witness :
  let event := completed_event (Some "user_1_course_2") (Some "ORDER1") None in
  let s := example_store [] [example_pending] in
  let s' := run_store (handlePaymentCaptureCompleted example_world event) s in
  let recorded (r : transaction) :=
    tx_status r = Success ∧ tx_payment_id r = rs_id (resource event) ∧
    tx_amount r = AmountNumber (cc_price example_course) ∧
    tx_currency r = course_currency example_config example_course in
  (∃ r, r ∈ transactions s' ∧ recorded r) ∧
  (∀ r, r ∈ transactions s' → r ∈ transactions s ∨ recorded r).
Proof.
  apply (capture_completed_without_amount example_world _ 1 2
           example_config example_course).
  - reflexivity.
  - repeat split.
  - reflexivity.
  - reflexivity.
Defined.

Example without_amount_row :
  let event := completed_event (Some "user_1_course_2") None None in
  (λ r, (tx_payment_id r, tx_amount r, tx_currency r, tx_status r)) <$>
  transactions
    (run_store (handlePaymentCaptureCompleted example_world event)
       (example_store [] []))
  = [ ("CAP123", AmountNumber (1999 # 100), "USD", Success) ].
Proof. reflexivity. Qed.

(** ** The denied and refunded handlers *)

Lemma denied_dropped w event s :
  event_ids event = None →
  handlePaymentCaptureDenied w event s = (Done tt, s).
Proof.
  intros [H | (cid & H & Hp)]%event_ids_None;
    unfold handlePaymentCaptureDenied; rewrite H; [done|]. by rewrite Hp.
Qed.

Lemma denied_recorded w event u c cfg s :
  event_ids event = Some (u, c) →
  config_yaml w = Ok cfg →
  handlePaymentCaptureDenied w event s =
  (Done tt,
   insert_transaction u c (rs_id (resource event)) (amount_or event 0)
     (normalizeCurrency (event_currency_code event)
        (normalizeCurrency None
           (normalizeCurrency (payments_paypal_currency cfg)
              (app_defaultCurrency cfg))))
     Failed Purchase None (now w) s).
Proof.
  intros (cid & H & Hp)%event_ids_Some Hcfg.
  unfold handlePaymentCaptureDenied. rewrite H, Hp.
  unfold bind at 1. by rewrite (resolvePaypalCurrency_loaded w cfg None s Hcfg).
Qed.

Lemma denied_config_error w event err s :
  config_yaml w = Err err →
  run_store (handlePaymentCaptureDenied w event) s = s.
Proof.
  intros Hcfg. unfold handlePaymentCaptureDenied, run_store.
  destruct (Js.truthy _) as [cid|]; [|done].
  destruct (parse_custom_id cid) as [[u c]|]; [|done].
  unfold resolvePaypalCurrency, loadAppConfig. unfold_handler. by rewrite Hcfg.
Qed.

Lemma refunded_dropped w event s :
  event_ids event = None →
  handlePaymentCaptureRefunded w event s = (Done tt, s).
Proof.
  intros [H | (cid & H & Hp)]%event_ids_None;
    unfold handlePaymentCaptureRefunded; rewrite H; [done|]. by rewrite Hp.
Qed.

Lemma refunded_processed w event u c cfg s :
  event_ids event = Some (u, c) →
  config_yaml w = Ok cfg →
  handlePaymentCaptureRefunded w event s =
  (Done tt,
   set_redis (delete (CACHE_KEYS.USER_COURSES u))
     (insert_transaction u c (rs_id (resource event)) (amount_or event 0)
        (normalizeCurrency (event_currency_code event)
           (normalizeCurrency None
              (normalizeCurrency (payments_paypal_currency cfg)
                 (app_defaultCurrency cfg))))
        Refunded Refund None (now w)
        (delete_user_courses u c s))).
Proof.
  intros (cid & H & Hp)%event_ids_Some Hcfg.
  unfold handlePaymentCaptureRefunded. rewrite H, Hp.
  unfold bind at 1. by rewrite (resolvePaypalCurrency_loaded w cfg None s Hcfg).
Qed.

Lemma filter_after_delete u c (l : list entitlement) :
  filter (λ r, uc_user_id r = u ∧ uc_course_id r = c)
    (filter (λ r, ¬ (uc_user_id r = u ∧ uc_course_id r = c)) l) = [].
Proof.
  induction l as [|r l IH]; [done|].
  rewrite (filter_cons (λ r, ¬ _)). destruct (decide (¬ _)) as [Hn|Hy]; [|done].
  by rewrite filter_cons_False.
Qed.

Lemma select_after_delete u c s :
  select_user_courses u c (delete_user_courses u c s) = [].
Proof. apply filter_after_delete. Qed.

Lemma cache_get_after_del key s :
  cache_get key (set_redis (delete key) s) = None.
Proof.
  unfold cache_get. simpl. destruct (redis s) as [m|]; simpl; [|done].
  apply lookup_delete_eq.
Qed.

(** C7. A refunded event whose custom id parses to [(u, c)]: the handler
    ends without error whether or not the pair was entitled; afterwards the
    pair has no entitlement row, the rows of other pairs are all still
    there, the table has one new [refunded] row, and the cached course list
    of the user is gone.  Delivered a second time, the event leaves the
    entitlement absent and adds another [refunded] row. *)
Theorem capture_refunded_revokes w event u c cfg s :
  event_ids event = Some (u, c) →
  config_yaml w = Ok cfg →
  let s1 := run_store (handlePaymentCaptureRefunded w event) s in
  let s2 := run_store (handlePaymentCaptureRefunded w event) s1 in
  run_outcome (handlePaymentCaptureRefunded w event) s = Done tt ∧
  entitlement_count u c s1 = 0%nat ∧
  user_courses s1 =
    filter (λ r, ¬ (uc_user_id r = u ∧ uc_course_id r = c)) (user_courses s) ∧
  (∃ r, transactions s1 = transactions s ++ [r] ∧
        tx_user_id r = u ∧ tx_course_id r = Some c ∧
        tx_payment_id r = rs_id (resource event) ∧
        tx_status r = Refunded ∧ tx_type r = Refund) ∧
  cache_get (CACHE_KEYS.USER_COURSES u) s1 = None ∧
  run_outcome (handlePaymentCaptureRefunded w event) s1 = Done tt ∧
  entitlement_count u c s2 = 0%nat ∧
  user_courses s2 = user_courses s1 ∧
  length (rows_with_status Refunded s2) = S (S (length (rows_with_status Refunded s))) ∧
  length (transactions s2) = S (S (length (transactions s))).
Proof.
  intros Hids Hcfg s1 s2. subst s2 s1. unfold run_store, run_outcome.
  rewrite !(refunded_processed w event u c cfg) by done. simpl.
  unfold entitlement_count, rows_with_status. simpl.
  repeat split.
  - apply length_zero_iff_nil, (select_after_delete u c s).
  - eexists. split; [reflexivity|]. done.
  - unfold cache_get. simpl. destruct (redis s) as [m|]; simpl; [|done].
    apply lookup_delete_eq.
  - apply length_zero_iff_nil. unfold select_user_courses. simpl.
    apply filter_after_delete.
  - rewrite list_filter_filter. apply list_filter_iff. tauto.
  - rewrite !filter_app, !length_app.
    rewrite !filter_cons_True, !filter_nil by done. simpl. lia.
  - rewrite !length_app. simpl. lia.
Qed.

Lemma capture_refunded_revokes_witness :
  let event := example_event "PAYMENT.CAPTURE.REFUNDED" (Some "user_1_course_2")
                 None (Some {| currency_code := "usd"; value := "19.99" |}) in
  let s := example_store [example_entitlement] [] in
  let s1 := run_store (handlePaymentCaptureRefunded example_world event) s in
  let s2 := run_store (handlePaymentCaptureRefunded example_world event) s1 in
  run_outcome (handlePaymentCaptureRefunded example_world event) s = Done tt ∧
  entitlement_count 1 2 s1 = 0%nat ∧
  user_courses s1 =
    filter (λ r, ¬ (uc_user_id r = 1 ∧ uc_course_id r = 2)) (user_courses s) ∧
  (∃ r, transactions s1 = transactions s ++ [r] ∧
        tx_user_id r = 1 ∧ tx_course_id r = Some 2 ∧
        tx_payment_id r = rs_id (resource event) ∧
        tx_status r = Refunded ∧ tx_type r = Refund) ∧
  cache_get (CACHE_KEYS.USER_COURSES 1) s1 = None ∧
  run_outcome (handlePaymentCaptureRefunded example_world event) s1 = Done tt ∧
  entitlement_count 1 2 s2 = 0%nat ∧
  user_courses s2 = user_courses s1 ∧
  length (rows_with_status Refunded s2) = S (S (length (rows_with_status Refunded s))) ∧
  length (transactions s2) = S (S (length (transactions s))).
Proof.
  apply (capture_refunded_revokes example_world _ 1 2 example_config); reflexivity.
Defined.

(** Grant, then refund twice: the entitlement is gone and there are two
    [refunded] rows next to the [success] one. *)
Example refund_after_grant :
  let paid := Some {| currency_code := "usd"; value := "19.99" |} in
  let grant := completed_event (Some "user_1_course_2") None paid in
  let refund := example_event "PAYMENT.CAPTURE.REFUNDED" (Some "user_1_course_2")
                  None paid in
  let s1 := run_store (handlePaymentCaptureCompleted example_world grant)
              (example_store [] []) in
  let s2 := run_store (handlePaymentCaptureRefunded example_world refund) s1 in
  let s3 := run_store (handlePaymentCaptureRefunded example_world refund) s2 in
  entitlement_count 1 2 s1 = 1%nat ∧
  user_courses s2 = [] ∧ tx_status <$> transactions s2 = [Success; Refunded] ∧
  user_courses s3 = [] ∧
  tx_status <$> transactions s3 = [Success; Refunded; Refunded].
Proof. repeat split. Qed.

(** C8. A denied event never changes [user_courses].  When its custom id
    parses to [(u, c)] (and [config.yaml] loads) the new store is the old one
    with exactly one [failed] row appended to [transactions]; when the custom
    id is absent or does not parse, the store is unchanged. *)
Theorem capture_denied_frame w event s :
  let s' := run_store (handlePaymentCaptureDenied w event) s in
  user_courses s' = user_courses s ∧
  (∀ u c cfg, event_ids event = Some (u, c) → config_yaml w = Ok cfg →
     ∃ r, s' = set_transactions (λ t, t ++ [r]) s ∧
          tx_user_id r = u ∧ tx_course_id r = Some c ∧
          tx_payment_id r = rs_id (resource event) ∧
          tx_status r = Failed ∧ tx_type r = Purchase) ∧
  (event_ids event = None → s' = s).
Proof.
  intros s'. subst s'. split; [|split].
  - destruct (event_ids event) as [[u c]|] eqn:Hids.
    + destruct (config_yaml w) as [cfg|err] eqn:Hcfg.
      * unfold run_store. by rewrite (denied_recorded w event u c cfg).
      * by rewrite (denied_config_error w event err).
    + unfold run_store. by rewrite denied_dropped.
  - intros u c cfg Hids Hcfg. unfold run_store.
    rewrite (denied_recorded w event u c cfg) by done. simpl.
    eexists. split; [reflexivity|]. done.
  - intros Hids. unfold run_store. by rewrite denied_dropped.
Qed.

Example denied_row :
  let event := example_event "PAYMENT.CAPTURE.DENIED" (Some "user_1_course_2")
                 None None in
  let s := example_store [example_entitlement] [example_pending] in
  let s' := run_store (handlePaymentCaptureDenied example_world event) s in
  user_courses s' = [example_entitlement] ∧
  (λ r, (tx_id r, tx_payment_id r, tx_amount r, tx_currency r, tx_status r)) <$>
    transactions s'
  = [ (1, "ORDER1", AmountNumber (1999 # 100), "USD", Pending);
      (2, "CAP123", AmountNumber 0, "USD", Failed) ].
Proof. repeat split. Qed.

(** ** The dispatcher *)

Lemma truthy_nonempty x : x ≠ "" → Js.truthy (Some x) = Some x.
Proof. by destruct x. Qed.

Lemma gate_invalid w req s :
  paypal_webhookId w ≠ "" →
  verifyWebhookSignature w (rq_headers req) (rq_body req) (paypal_webhookId w)
  = Ok false →
  signature_gate w req s =
  (Done (Some {| status_code := 401; body := Rejected "Invalid signature" |}), s).
Proof.
  intros Hid Hv. unfold signature_gate. rewrite (truthy_nonempty _ Hid).
  unfold_handler. by rewrite Hv.
Qed.

Lemma gate_unconfigured_production w req s :
  paypal_webhookId w = "" →
  nodeEnv w = production →
  signature_gate w req s =
  (Done (Some {| status_code := 500;
                 body := Rejected "Webhook verification not configured" |}), s).
Proof. intros Hid Henv. unfold signature_gate. rewrite Hid. by rewrite decide_True. Qed.

Lemma gate_open w req s :
  verified_or_exempt w req → signature_gate w req s = (Done None, s).
Proof.
  unfold signature_gate. intros [(Hid & Hv) | (Hid & Henv)].
  - rewrite (truthy_nonempty _ Hid). unfold_handler. by rewrite Hv.
  - rewrite Hid. by rewrite decide_False.
Qed.

Lemma webhook_after_gate w req s :
  signature_gate w req s = (Done None, s) →
  handlePayPalWebhook w req s = process_event w (rq_body req) s.
Proof.
  intros Hg. unfold handlePayPalWebhook, process_event, try_catch.
  unfold bind at 1. rewrite Hg. reflexivity.
Qed.

(** X14. When the signature check itself throws (instead of answering), the
    event is not processed and the answer is the 200 of the [catch] branch,
    with the error field set: not a 401. *)
Lemma webhook_verification_throws w req e s :
  paypal_webhookId w ≠ "" →
  verifyWebhookSignature w (rq_headers req) (rq_body req) (paypal_webhookId w)
  = Err e →
  handlePayPalWebhook w req s =
  (Done {| status_code := 200; body := Received (Some "processed with error") |}, s).
Proof.
  intros Hid Hv. unfold handlePayPalWebhook, signature_gate.
  rewrite (truthy_nonempty _ Hid). unfold_handler. by rewrite Hv.
Qed.

(** C5. The signature gate.  With a webhook id configured and a signature
    that does not verify, the answer is 401 and the store is untouched;
    with none configured in production, the answer is 500 and the store is
    untouched; with none configured elsewhere, the event is processed as it
    is, whatever the headers. *)
Theorem webhook_signature_gate w req s :
  (paypal_webhookId w ≠ "" →
   verifyWebhookSignature w (rq_headers req) (rq_body req) (paypal_webhookId w)
   = Ok false →
   handlePayPalWebhook w req s =
   (Done {| status_code := 401; body := Rejected "Invalid signature" |}, s)) ∧
  (paypal_webhookId w = "" → nodeEnv w = production →
   handlePayPalWebhook w req s =
   (Done {| status_code := 500;
            body := Rejected "Webhook verification not configured" |}, s)) ∧
  (paypal_webhookId w = "" → nodeEnv w ≠ production →
   handlePayPalWebhook w req s = process_event w (rq_body req) s ∧
   run_store (handlePayPalWebhook w req) s = run_store (route w (rq_body req)) s).
Proof.
  split; [|split].
  - intros Hid Hv. unfold handlePayPalWebhook, try_catch. unfold bind at 1.
    by rewrite (gate_invalid w req s Hid Hv).
  - intros Hid Henv. unfold handlePayPalWebhook, try_catch. unfold bind at 1.
    by rewrite (gate_unconfigured_production w req s Hid Henv).
  - intros Hid Henv.
    assert (handlePayPalWebhook w req s = process_event w (rq_body req) s) as Heq.
    { apply webhook_after_gate, gate_open. by right. }
    split; [done|]. unfold run_store. rewrite Heq.
    unfold process_event. unfold_handler.
    by destruct (route w (rq_body req) s) as [[[]|e] s'].
Qed.

(** A tampered signature in production: 401, nothing granted. *)
Example tampered_signature :
  let req := {| rq_headers := example_headers (Some "forged");
                rq_body := completed_event (Some "user_1_course_2") None None |} in
  handlePayPalWebhook example_world req (example_store [] []) =
  (Done {| status_code := 401; body := Rejected "Invalid signature" |},
   example_store [] []).
Proof. reflexivity. Qed.

Example unconfigured_in_production :
  let req := {| rq_headers := example_headers (Some "good");
                rq_body := completed_event (Some "user_1_course_2") None None |} in
  handlePayPalWebhook (world_with_gate "" production) req
    (example_store [] []) =
  (Done {| status_code := 500;
           body := Rejected "Webhook verification not configured" |},
   example_store [] []).
Proof. reflexivity. Qed.

Example unconfigured_in_development :
  let req := {| rq_headers := example_headers None;
                rq_body := completed_event (Some "user_1_course_2") None None |} in
  let r := handlePayPalWebhook (world_with_gate "" development) req
             (example_store [] []) in
  fst r = Done {| status_code := 200; body := Received None |} ∧
  entitlement_count 1 2 (snd r) = 1%nat.
Proof. split; reflexivity. Qed.

(** C6. Once a request is through the signature gate the answer is always
    200 with [received: true]: without an error field when the routed
    handler returns, with one when it throws; an event type that is not
    routed leaves the store alone.  The store is the one the routed handler
    left. *)
Theorem webhook_always_acknowledged w req s :
  verified_or_exempt w req →
  ∃ err,
    handlePayPalWebhook w req s =
    (Done {| status_code := 200; body := Received err |},
     run_store (route w (rq_body req)) s) ∧
    (run_outcome (route w (rq_body req)) s = Done tt → err = None) ∧
    (∀ e, run_outcome (route w (rq_body req)) s = Threw e →
          err = Some "processed with error") ∧
    (event_type (rq_body req) ∉ known_event_types →
     err = None ∧ run_store (route w (rq_body req)) s = s).
Proof.
  intros Hgate. rewrite (webhook_after_gate w req s (gate_open w req s Hgate)).
  unfold process_event. unfold_handler.
  destruct (route w (rq_body req) s) as [[[]|e] s'] eqn:Hroute; simpl.
  - exists None. repeat split; try done.
    unfold route in Hroute. unfold known_event_types in H.
    repeat (destruct (decide _) as [E|_] in Hroute;
            [exfalso; apply H; rewrite E; set_solver|]).
    by injection Hroute.
  - exists (Some "processed with error"). repeat split; try done.
    all: unfold route in Hroute; unfold known_event_types in H;
      repeat (destruct (decide _) as [E|_] in Hroute;
              [exfalso; apply H; rewrite E; set_solver|]);
      done.
Qed.

Lemma webhook_always_acknowledged_witness :
  let req := {| rq_headers := example_headers (Some "good");
                rq_body := example_event "PAYMENT.CAPTURE.DENIED"
                             (Some "user_1_course_2") None None |} in
  let s := example_store [] [] in
  ∃ err,
    handlePayPalWebhook world_without_config req s =
    (Done {| status_code := 200; body := Received err |},
     run_store (route world_without_config (rq_body req)) s) ∧
    (run_outcome (route world_without_config (rq_body req)) s = Done tt → err = None) ∧
    (∀ e, run_outcome (route world_without_config (rq_body req)) s = Threw e →
          err = Some "processed with error") ∧
    (event_type (rq_body req) ∉ known_event_types →
     err = None ∧ run_store (route world_without_config (rq_body req)) s = s).
Proof.
  apply (webhook_always_acknowledged world_without_config).
  left. split; [discriminate|reflexivity].
Defined.

(** A handler that throws: [config.yaml] does not load, the denied handler
    fails on it, and the answer is still 200, with the error field. *)
Example handler_throws_still_200 :
  let req := {| rq_headers := example_headers (Some "good");
                rq_body := example_event "PAYMENT.CAPTURE.DENIED"
                             (Some "user_1_course_2") None None |} in
  run_outcome (route world_without_config (rq_body req)) (example_store [] [])
  = Threw {| err_message := "Invalid config.yaml"; err_status := None |} ∧
  handlePayPalWebhook world_without_config req (example_store [] []) =
  (Done {| status_code := 200; body := Received (Some "processed with error") |},
   example_store [] []).
Proof. split; reflexivity. Qed.

Example unknown_event_type_ignored :
  let req := {| rq_headers := example_headers (Some "good");
                rq_body := example_event "BILLING.SUBSCRIPTION.CREATED"
                             (Some "user_1_course_2") None None |} in
  handlePayPalWebhook example_world req (example_store [] []) =
  (Done {| status_code := 200; body := Received None |}, example_store [] []).
Proof. reflexivity. Qed.

(** An approved order is captured and then handled as a completed capture
    that carries the capture id and the captured amount. *)
Example order_approved_captures :
  let req := {| rq_headers := example_headers (Some "good");
                rq_body := example_event "CHECKOUT.ORDER.APPROVED"
                             (Some "user_1_course_2") None None |} in
  let r := handlePayPalWebhook example_world req (example_store [] []) in
  fst r = Done {| status_code := 200; body := Received None |} ∧
  provider_captures (snd r) = ["CAP123"] ∧
  entitlement_count 1 2 (snd r) = 1%nat ∧
  (λ t, (tx_payment_id t, tx_amount t, tx_currency t, tx_status t)) <$>
    transactions (snd r)
  = [ ("CAP-CAP123", AmountText "19.99", "USD", Success) ].
Proof. repeat split. Qed.

(** A capture-completed request that is through the gate changes the store
    exactly as [handlePaymentCaptureCompleted] does on its event; so what
    is proved of the handler holds of the webhook deliveries. *)
Lemma webhook_completed_store w req s :
  verified_or_exempt w req →
  event_type (rq_body req) = "PAYMENT.CAPTURE.COMPLETED" →
  run_store (handlePayPalWebhook w req) s
  = run_store (handlePaymentCaptureCompleted w (rq_body req)) s.
Proof.
  intros Hgate Hty. unfold run_store.
  rewrite (webhook_after_gate w req s (gate_open w req s Hgate)).
  unfold process_event, route.
  rewrite decide_True by done. unfold_handler.
  by destruct (handlePaymentCaptureCompleted w (rq_body req) s) as [[[]|e] s'].
Qed.

(** The dispatcher itself never throws, and answers 200, 401 or 500. *)
Lemma webhook_status_codes w req s :
  ∃ r, run_outcome (handlePayPalWebhook w req) s = Done r ∧
       (status_code r = 200 ∨ status_code r = 401 ∨ status_code r = 500).
Proof.
  unfold handlePayPalWebhook, run_outcome, try_catch. unfold bind at 1.
  destruct (signature_gate w req s) as [[[r|]|e] s'] eqn:Hg.
  - exists r. split; [done|]. unfold signature_gate in Hg.
    destruct (Js.truthy _) as [id|].
    + unfold_handler.
      destruct (verifyWebhookSignature _ _ _ _) as [[]|]; simplify_eq/=; auto.
    + case_decide; unfold ret in Hg; simplify_eq/=; auto.
  - unfold_handler. destruct (route w (rq_body req) s') as [[[]|e] s'']; naive_solver.
  - naive_solver.
Qed.

(** ** Order creation *)

Lemma purchase_already_purchased w user_id body courseId cfg cc s :
  body ≫= Js.parseInt10 = Some courseId → courseId ≠ 0 →
  course_available w courseId cfg cc →
  select_user_courses user_id courseId s ≠ [] →
  createPurchaseOrder w user_id body s =
  (Done (Next (createError "Course already purchased" 400)), s).
Proof.
  intros Hparse Hnz Hav Hex. pose proof Hav as (Hdir & Hcfg & Hfind).
  unfold createPurchaseOrder, try_catch. rewrite Hparse.
  apply Z.eqb_neq in Hnz. rewrite Hnz, Hdir. simpl.
  unfold bind at 1. rewrite (loadCourseMetadata_available w courseId cfg cc s Hav).
  unfold bind at 1. rewrite (resolvePaypalCurrency_loaded w cfg _ s Hcfg).
  unfold bind at 1, get_store.
  by destruct (select_user_courses user_id courseId s).
Qed.

Lemma purchase_not_found w user_id body courseId s :
  body ≫= Js.parseInt10 = Some courseId → courseId ≠ 0 →
  (course_dir_exists w courseId = false ∨
   ∃ cfg, config_yaml w = Ok cfg ∧
          find (λ c, bool_decide (cc_id c = courseId)) (courses cfg) = None) →
  createPurchaseOrder w user_id body s =
  (Done (Next (createError "Course not found" 404)), s).
Proof.
  intros Hparse Hnz Hmissing.
  unfold createPurchaseOrder, try_catch. rewrite Hparse.
  apply Z.eqb_neq in Hnz. rewrite Hnz.
  destruct (course_dir_exists w courseId) eqn:Hdir; simpl; [|done].
  destruct Hmissing as [?|(cfg & Hcfg & Hfind)]; [done|].
  unfold loadCourseMetadata, getCourseConfig, loadAppConfig. unfold_handler.
  rewrite Hcfg. simpl. by rewrite Hfind.
Qed.

(** An entitled user gets an error and the store is left alone, whatever
    else holds of the course and of the world. *)
Lemma purchase_entitled_fails w user_id body courseId s :
  body ≫= Js.parseInt10 = Some courseId →
  select_user_courses user_id courseId s ≠ [] →
  ∃ e, createPurchaseOrder w user_id body s = (Done (Next e), s).
Proof.
  intros Hparse Hex. unfold createPurchaseOrder, try_catch. rewrite Hparse.
  destruct (courseId =? 0); [by eexists|].
  destruct (course_dir_exists w courseId); simpl; [|by eexists].
  unfold bind at 1.
  pose proof (loadCourseMetadata_store w courseId s) as Hm.
  destruct (loadCourseMetadata w courseId s) as [[[meta|]|e] s'];
    simpl in Hm; subst s'; try by eexists.
  unfold bind at 1.
  pose proof (resolvePaypalCurrency_store w (Some (meta_currency meta)) s) as Hr.
  destruct (resolvePaypalCurrency w (Some (meta_currency meta)) s) as [[cur|e] s'];
    simpl in Hr; subst s'; try by eexists.
  unfold bind at 1, get_store.
  destruct (select_user_courses user_id courseId s); [done|]. by eexists.
Qed.

(** C9. [createPurchaseOrder] for a course id that reads as [courseId]:
    when the course is available and the user already holds an entitlement
    for it, the request ends with the error "Course already purchased"
    (status 400) and the store is the one it started from, so no provider
    order was requested and no transaction row inserted; an entitled user
    never gets past an error in any case; and when the course directory or
    its entry in [config.yaml] is missing, the request ends with "Course not
    found" (status 404), the store again unchanged. *)
Theorem purchase_order_refused w user_id body courseId s :
  body ≫= Js.parseInt10 = Some courseId → courseId ≠ 0 →
  (∀ cfg cc, course_available w courseId cfg cc →
     entitlement_count user_id courseId s ≠ 0%nat →
     createPurchaseOrder w user_id body s =
     (Done (Next (createError "Course already purchased" 400)), s)) ∧
  (entitlement_count user_id courseId s ≠ 0%nat →
     ∃ e, createPurchaseOrder w user_id body s = (Done (Next e), s)) ∧
  ((course_dir_exists w courseId = false ∨
    ∃ cfg, config_yaml w = Ok cfg ∧
           find (λ c, bool_decide (cc_id c = courseId)) (courses cfg) = None) →
     createPurchaseOrder w user_id body s =
     (Done (Next (createError "Course not found" 404)), s)).
Proof.
  intros Hparse Hnz.
  assert (entitlement_count user_id courseId s ≠ 0%nat →
          select_user_courses user_id courseId s ≠ []) as Hcount.
  { intros H E. apply H. unfold entitlement_count. by rewrite E. }
  split; [|split].
  - intros cfg cc Hav Hex.
    apply (purchase_already_purchased w user_id body courseId cfg cc); auto.
  - intros Hex. apply (purchase_entitled_fails w user_id body courseId); auto.
  - by apply purchase_not_found.
Qed.

Lemma purchase_order_refused_witness :
  let s := example_store [example_entitlement] [] in
  (∀ cfg cc, course_available example_world 2 cfg cc →
     entitlement_count 1 2 s ≠ 0%nat →
     createPurchaseOrder example_world 1 (Some "2") s =
     (Done (Next (createError "Course already purchased" 400)), s)) ∧
  (entitlement_count 1 2 s ≠ 0%nat →
     ∃ e, createPurchaseOrder example_world 1 (Some "2") s = (Done (Next e), s)) ∧
  ((course_dir_exists example_world 2 = false ∨
    ∃ cfg, config_yaml example_world = Ok cfg ∧
           find (λ c, bool_decide (cc_id c = 2)) (courses cfg) = None) →
     createPurchaseOrder example_world 1 (Some "2") s =
     (Done (Next (createError "Course not found" 404)), s)).
Proof.
  apply (purchase_order_refused example_world 1 (Some "2") 2).
  - reflexivity.
  - lia.
Defined.

Example purchase_refused_when_entitled :
  let s := example_store [example_entitlement] [] in
  createPurchaseOrder example_world 1 (Some "2") s =
  (Done (Next (createError "Course already purchased" 400)), s).
Proof. reflexivity. Qed.

Example purchase_unknown_course :
  let s := example_store [example_entitlement] [] in
  createPurchaseOrder example_world 1 (Some "3") s =
  (Done (Next (createError "Course not found" 404)), s).
Proof. reflexivity. Qed.

(** The scenario of the specification, with user 1 and course 2: the order
    carries the custom id, a pending row is stored under the order id, the
    capture CAP123 turns it into [success] and entitles the user, and a
    second delivery changes nothing. *)
Example purchase_then_capture :
  let s0 := example_store [] [] in
  let s1 := run_store (createPurchaseOrder example_world 1 (Some "2")) s0 in
  let event := completed_event (Some "user_1_course_2") (Some "ORDER1")
                 (Some {| currency_code := "USD"; value := "19.99" |}) in
  let s2 := run_store (handlePaymentCaptureCompleted example_world event) s1 in
  let s3 := run_store (handlePaymentCaptureCompleted example_world event) s2 in
  (rq_custom_id <$> provider_orders s1) = ["user_1_course_2"] ∧
  (rq_amount <$> provider_orders s1) = ["19.99"] ∧
  transactions s1 = [example_pending_at 1000] ∧
  entitlement_count 1 2 s2 = 1%nat ∧
  transactions s2 =
    [set_payment Success "CAP123" (AmountText "19.99") "USD"
       (example_pending_at 1000)] ∧
  confirmations s2 = [(1, "Course two", Some 55)] ∧
  s3 = s2.
Proof. repeat split. Qed.

(** ** What the custom id pattern accepts *)

(** C2, evaluated on the code.  The custom ids ["user_1_course_2x"] and
    ["xuser_1_course_2"] are not of the form [user_<digits>_course_<digits>],
    yet the pattern, which has no anchors, accepts both as user 1 and
    course 2, and a capture-completed event carrying either of them grants
    the access and records the payment. *)
Theorem custom_id_pattern_not_anchored :
  let grant customId :=
    run_store
      (handlePaymentCaptureCompleted example_world
         (completed_event (Some customId) None None))
      (example_store [] []) in
  (¬ exact_custom_id_form "user_1_course_2x" ∧
   parse_custom_id "user_1_course_2x" = Some (1, 2) ∧
   entitlement_count 1 2 (grant "user_1_course_2x") = 1%nat ∧
   tx_status <$> transactions (grant "user_1_course_2x") = [Success]) ∧
  (¬ exact_custom_id_form "xuser_1_course_2" ∧
   parse_custom_id "xuser_1_course_2" = Some (1, 2) ∧
   entitlement_count 1 2 (grant "xuser_1_course_2") = 1%nat ∧
   tx_status <$> transactions (grant "xuser_1_course_2") = [Success]).
Proof.
  intros grant. split; (split; [|by repeat split]).
  - intros (du & dc & Hh & Heq)%exact_custom_id_form_here.
    vm_compute in Hh. injection Hh as <- <-. discriminate Heq.
  - intros (du & dc & Hh & Heq)%exact_custom_id_form_here.
    vm_compute in Hh. discriminate Hh.
Qed.

(** ** The primary key of [transactions] is kept *)

Lemma insert_transaction_ids_unique u c pid a cur st ty mid t s :
  tx_ids_unique s →
  tx_ids_unique (insert_transaction u c pid a cur st ty mid t s).
Proof.
  unfold tx_ids_unique, insert_transaction. simpl. intros Hnd.
  rewrite fmap_app. simpl. by apply NoDup_snoc_next_id.
Qed.

Lemma update_transaction_ids_unique i st pid a cur s :
  tx_ids_unique s → tx_ids_unique (update_transaction i st pid a cur s).
Proof.
  unfold tx_ids_unique, update_transaction. simpl.
  by rewrite (update_where_id_ids i _ (set_payment_id st pid a cur)).
Qed.

Lemma completed_ids_unique w event s :
  tx_ids_unique s →
  tx_ids_unique (run_store (handlePaymentCaptureCompleted w event) s).
Proof.
  intros Hnd.
  destruct (completed_store_cases w event s)
    as [-> | (u & c & cfg & cc & Hids & Hav & Hex)]; [done|].
  destruct (completed_grant w event u c cfg cc s Hids Hav Hex)
    as (s' & Hrun & _ & Htx & _).
  unfold run_store. rewrite Hrun. simpl. unfold tx_ids_unique. rewrite Htx.
  destruct (pending_for event u c s) as [p|].
  - by rewrite (update_where_id_ids (tx_id p) _ (set_payment_id _ _ _ _)).
  - rewrite fmap_app. simpl. by apply NoDup_snoc_next_id.
Qed.

Lemma denied_ids_unique w event s :
  tx_ids_unique s →
  tx_ids_unique (run_store (handlePaymentCaptureDenied w event) s).
Proof.
  intros Hnd. destruct (event_ids event) as [[u c]|] eqn:Hids.
  - destruct (config_yaml w) as [cfg|err] eqn:Hcfg.
    + unfold run_store. rewrite (denied_recorded w event u c cfg) by done.
      by apply insert_transaction_ids_unique.
    + by rewrite (denied_config_error w event err).
  - unfold run_store. by rewrite denied_dropped.
Qed.

Lemma refunded_ids_unique w event s :
  tx_ids_unique s →
  tx_ids_unique (run_store (handlePaymentCaptureRefunded w event) s).
Proof.
  intros Hnd. destruct (event_ids event) as [[u c]|] eqn:Hids.
  - destruct (config_yaml w) as [cfg|err] eqn:Hcfg.
    + unfold run_store. rewrite (refunded_processed w event u c cfg) by done.
      simpl. by apply (insert_transaction_ids_unique _ _ _ _ _ _ _ _ _
                         (delete_user_courses u c s)).
    + apply event_ids_Some in Hids as (cid & H & Hp).
      unfold handlePaymentCaptureRefunded, run_store. rewrite H, Hp.
      unfold resolvePaypalCurrency, loadAppConfig. unfold_handler.
      by rewrite Hcfg.
  - unfold run_store. by rewrite refunded_dropped.
Qed.

Lemma empty_store_ids_unique : tx_ids_unique empty_store.
Proof. apply NoDup_nil_2. Qed.

Lemma order_approved_ids_unique w event s :
  tx_ids_unique s →
  tx_ids_unique (run_store (handleCheckoutOrderApproved w event) s).
Proof.
  intros Hnd. unfold handleCheckoutOrderApproved, run_store. unfold_handler.
  destruct (captureOrder w _) as [cr|e]; simpl; [|done].
  match goal with
  | |- context [handlePaymentCaptureCompleted w ?ev ?s0] =>
      pose proof (completed_ids_unique w ev s0 Hnd) as H;
      unfold run_store in H;
      destruct (handlePaymentCaptureCompleted w ev s0) as [[[]|e] s']
  end; done.
Qed.

Lemma route_ids_unique w event s :
  tx_ids_unique s → tx_ids_unique (run_store (route w event) s).
Proof.
  intros Hnd. unfold route. repeat case_decide.
  - by apply completed_ids_unique.
  - by apply denied_ids_unique.
  - by apply refunded_ids_unique.
  - by apply order_approved_ids_unique.
  - done.
Qed.

(** Every webhook request leaves [id] a key of [transactions]. *)
Lemma webhook_ids_unique w req s :
  tx_ids_unique s → tx_ids_unique (run_store (handlePayPalWebhook w req) s).
Proof.
  intros Hnd. unfold handlePayPalWebhook, run_store, try_catch. unfold bind at 1.
  unfold signature_gate.
  destruct (Js.truthy _) as [id|].
  - unfold_handler.
    destruct (verifyWebhookSignature _ _ _ _) as [[]|]; simpl; try done.
    pose proof (route_ids_unique w (rq_body req) s Hnd) as H.
    unfold run_store in H. by destruct (route w (rq_body req) s) as [[[]|e] s'].
  - case_decide; [done|]. unfold_handler.
    pose proof (route_ids_unique w (rq_body req) s Hnd) as Hroute.
    unfold run_store in Hroute.
    by destruct (route w (rq_body req) s) as [[[]|e] s'].
Qed.

Lemma purchase_ids_unique w user_id body s :
  tx_ids_unique s →
  tx_ids_unique (run_store (createPurchaseOrder w user_id body) s).
Proof.
  intros Hnd. unfold createPurchaseOrder, run_store, try_catch.
  destruct (body ≫= Js.parseInt10) as [courseId|]; [|done].
  destruct (courseId =? 0); [done|].
  destruct (course_dir_exists w courseId); simpl; [|done].
  unfold bind at 1.
  pose proof (loadCourseMetadata_store w courseId s) as Hm.
  destruct (loadCourseMetadata w courseId s) as [[[meta|]|e] s'];
    simpl in Hm; subst s'; try done.
  unfold bind at 1.
  pose proof (resolvePaypalCurrency_store w (Some (meta_currency meta)) s) as Hr.
  destruct (resolvePaypalCurrency w (Some (meta_currency meta)) s) as [[cur|e] s'];
    simpl in Hr; subst s'; try done.
  unfold bind at 1, get_store.
  destruct (0 <? length (select_user_courses user_id courseId s))%nat; [done|].
  unfold sendPurchaseProcessingNotification. unfold_handler. simpl.
  destruct (createOrder w _) as [order|e]; simpl; [|done].
  destruct (processing_courier w _ _) as [mid|e]; simpl;
    unfold tx_ids_unique; simpl; rewrite fmap_app; simpl;
    by apply NoDup_snoc_next_id.
Qed.


(** * Further properties *)

(** ** Order creation, step by step *)

Lemma purchase_reaches_provider w user_id body courseId cfg cc s :
  body ≫= Js.parseInt10 = Some courseId → courseId ≠ 0 →
  course_available w courseId cfg cc →
  select_user_courses user_id courseId s = [] →
  createPurchaseOrder w user_id body s =
  match createOrder w (purchase_request w user_id courseId cfg cc) with
  | Ok order =>
      (Done (Json {| pd_orderId := or_orderId order;
                     pd_approveUrl := or_approveUrl order;
                     pd_price := cc_price cc;
                     pd_amount := or_amount order;
                     pd_currency := or_currency order |}),
       insert_transaction user_id courseId (or_orderId order)
         (AmountNumber (cc_price cc)) (or_currency order) Pending Purchase
         (processing_message_id w user_id (cc_title cc)) (now w)
         (add_processing_notice (user_id, cc_title cc)
            (add_provider_order (purchase_request w user_id courseId cfg cc) s)))
  | Err e =>
      (Done (Next e),
       add_provider_order (purchase_request w user_id courseId cfg cc) s)
  end.
Proof.
  intros Hparse Hnz Hav Hex. pose proof Hav as (Hdir & Hcfg & Hfind).
  unfold createPurchaseOrder, try_catch. rewrite Hparse.
  apply Z.eqb_neq in Hnz. rewrite Hnz, Hdir. simpl.
  unfold bind at 1. rewrite (loadCourseMetadata_available w courseId cfg cc s Hav).
  unfold bind at 1. rewrite (resolvePaypalCurrency_loaded w cfg _ s Hcfg).
  unfold bind at 1, get_store. rewrite Hex. simpl.
  unfold sendPurchaseProcessingNotification, processing_message_id.
  fold (course_currency cfg cc). fold (purchase_request w user_id courseId cfg cc).
  unfold_handler. simpl.
  destruct (createOrder w _) as [order|e]; simpl; [|done].
  by destruct (processing_courier w _ _) as [mid|e].
Qed.



(** X2. When the provider accepts the order, [createPurchaseOrder] answers
    with the order id and approval link, appends exactly one [pending]
    purchase row keyed by the provider's order id (amount: the course price;
    currency: the one the provider echoed; message id: the courier's answer,
    or none when the courier throws) and grants nothing: [user_courses] is
    untouched and no confirmation is sent. *)
Theorem purchase_creates_pending_row w user_id body courseId cfg cc order s :
  body ≫= Js.parseInt10 = Some courseId → courseId ≠ 0 →
  course_available w courseId cfg cc →
  entitlement_count user_id courseId s = 0%nat →
  createOrder w (purchase_request w user_id courseId cfg cc) = Ok order →
  let s' := run_store (createPurchaseOrder w user_id body) s in
  run_outcome (createPurchaseOrder w user_id body) s =
    Done (Json {| pd_orderId := or_orderId order;
                  pd_approveUrl := or_approveUrl order;
                  pd_price := cc_price cc;
                  pd_amount := or_amount order;
                  pd_currency := or_currency order |}) ∧
  (∃ r, transactions s' = transactions s ++ [r] ∧
        tx_user_id r = user_id ∧ tx_course_id r = Some courseId ∧
        tx_payment_id r = or_orderId order ∧
        tx_amount r = AmountNumber (cc_price cc) ∧
        tx_currency r = or_currency order ∧
        tx_status r = Pending ∧ tx_type r = Purchase ∧
        tx_notification_message_id r =
          processing_message_id w user_id (cc_title cc)) ∧
  processing_notices s' = processing_notices s ++ [(user_id, cc_title cc)] ∧
  user_courses s' = user_courses s ∧
  confirmations s' = confirmations s ∧
  redis s' = redis s.
Proof.
  intros Hparse Hnz Hav Hex%length_zero_iff_nil Horder s'.
  pose proof (purchase_reaches_provider w user_id body courseId cfg cc s
                Hparse Hnz Hav Hex) as Hrun.
  rewrite Horder in Hrun. unfold s', run_store, run_outcome. rewrite Hrun. simpl.
  split; [done|]. split; [|done].
  eexists. split; [reflexivity|]. done.
Qed.

Lemma purchase_creates_pending_row_witness :
  let w := world_courier_down in
  let s := example_store [] [] in
  let order := {| or_orderId := "ORDER1";
                  or_approveUrl := "https://pay.example/approve";
                  or_amount := "19.99"; or_currency := "USD" |} in
  let s' := run_store (createPurchaseOrder w 1 (Some "2")) s in
  run_outcome (createPurchaseOrder w 1 (Some "2")) s =
    Done (Json {| pd_orderId := or_orderId order;
                  pd_approveUrl := or_approveUrl order;
                  pd_price := cc_price example_course;
                  pd_amount := or_amount order;
                  pd_currency := or_currency order |}) ∧
  (∃ r, transactions s' = transactions s ++ [r] ∧
        tx_user_id r = 1 ∧ tx_course_id r = Some 2 ∧
        tx_payment_id r = or_orderId order ∧
        tx_amount r = AmountNumber (cc_price example_course) ∧
        tx_currency r = or_currency order ∧
        tx_status r = Pending ∧ tx_type r = Purchase ∧
        tx_notification_message_id r =
          processing_message_id w 1 (cc_title example_course)) ∧
  processing_notices s' = processing_notices s ++ [(1, cc_title example_course)] ∧
  user_courses s' = user_courses s ∧
  confirmations s' = confirmations s ∧
  redis s' = redis s.
Proof.
  apply (purchase_creates_pending_row world_courier_down 1 (Some "2") 2
           example_config example_course).
  - reflexivity.
  - lia.
  - repeat split.
  - reflexivity.
  - reflexivity.
Defined.

(** X3. When the provider call throws, [createPurchaseOrder] hands that
    very error to [next] and leaves both tables as they were: no
    transaction row, no processing notice, no entitlement. *)
Theorem purchase_provider_failure w user_id body courseId cfg cc e s :
  body ≫= Js.parseInt10 = Some courseId → courseId ≠ 0 →
  course_available w courseId cfg cc →
  entitlement_count user_id courseId s = 0%nat →
  createOrder w (purchase_request w user_id courseId cfg cc) = Err e →
  let s' := run_store (createPurchaseOrder w user_id body) s in
  run_outcome (createPurchaseOrder w user_id body) s = Done (Next e) ∧
  transactions s' = transactions s ∧
  user_courses s' = user_courses s ∧
  processing_notices s' = processing_notices s ∧
  confirmations s' = confirmations s.
Proof.
  intros Hparse Hnz Hav Hex%length_zero_iff_nil Horder s'.
  pose proof (purchase_reaches_provider w user_id body courseId cfg cc s
                Hparse Hnz Hav Hex) as Hrun.
  rewrite Horder in Hrun. unfold s', run_store, run_outcome. by rewrite Hrun.
Qed.

Lemma purchase_provider_failure_witness :
  let s := example_store [] [] in
  let s' := run_store (createPurchaseOrder world_provider_down 1 (Some "2")) s in
  run_outcome (createPurchaseOrder world_provider_down 1 (Some "2")) s
  = Done (Next provider_error) ∧
  transactions s' = transactions s ∧
  user_courses s' = user_courses s ∧
  processing_notices s' = processing_notices s ∧
  confirmations s' = confirmations s.
Proof.
  apply (purchase_provider_failure world_provider_down 1 (Some "2") 2
           example_config example_course).
  - reflexivity.
  - lia.
  - repeat split.
  - reflexivity.
  - reflexivity.
Defined.

(** X4. A course id that is missing, does not start with a number, or reads
    as zero is refused with "Invalid course ID" (status 400) before anything
    is looked up: the store is unchanged, in every world. *)
Theorem purchase_invalid_course_id w user_id body s :
  body ≫= Js.parseInt10 = None ∨ body ≫= Js.parseInt10 = Some 0 →
  createPurchaseOrder w user_id body s =
  (Done (Next (createError "Invalid course ID" 400)), s).
Proof.
  intros [H|H]; unfold createPurchaseOrder, try_catch; by rewrite H.
Qed.

Lemma purchase_invalid_course_id_witness :
  createPurchaseOrder example_world 1 (Some "  -0abc") (example_store [] []) =
  (Done (Next (createError "Invalid course ID" 400)), example_store [] []).
Proof.
  apply (purchase_invalid_course_id example_world 1 (Some "  -0abc")).
  right. reflexivity.
Defined.

Example purchase_invalid_ids :
  Js.parseInt10 "abc" = None ∧ Js.parseInt10 "" = None ∧
  Js.parseInt10 "-" = None ∧ Js.parseInt10 "0x10" = Some 0 ∧
  Js.parseInt10 " 7 days" = Some 7 ∧ Js.parseInt10 "-3" = Some (-3).
Proof. repeat split. Qed.

(** ** The capture-completed handler, further *)

Lemma store_ext (s1 s2 : store) :
  user_courses s1 = user_courses s2 → transactions s1 = transactions s2 →
  redis s1 = redis s2 → confirmations s1 = confirmations s2 →
  processing_notices s1 = processing_notices s2 →
  provider_orders s1 = provider_orders s2 →
  provider_captures s1 = provider_captures s2 → s1 = s2.
Proof. destruct s1, s2; simpl; intros; by subst. Qed.

Lemma course_available_courier w courier c cfg cc :
  course_available (with_confirmation_courier w courier) c cfg cc ↔
  course_available w c cfg cc.
Proof. done. Qed.

(** X5. A courier that throws changes nothing of a grant: whatever the
    confirmation courier does, the handler returns normally and leaves the
    same store. *)
Theorem capture_completed_courier_independent w courier event u c cfg cc s :
  event_ids event = Some (u, c) →
  course_available w c cfg cc →
  entitlement_count u c s = 0%nat →
  run_outcome (handlePaymentCaptureCompleted w event) s = Done tt ∧
  handlePaymentCaptureCompleted (with_confirmation_courier w courier) event s
  = handlePaymentCaptureCompleted w event s.
Proof.
  intros Hids Hav Hex%length_zero_iff_nil.
  destruct (completed_grant w event u c cfg cc s Hids Hav Hex)
    as (s1 & Hrun1 & Huc1 & Htx1 & Hr1 & Hc1 & Hp1 & Ho1 & Hcap1).
  destruct (completed_grant (with_confirmation_courier w courier) event u c
              cfg cc s Hids Hav Hex)
    as (s2 & Hrun2 & Huc2 & Htx2 & Hr2 & Hc2 & Hp2 & Ho2 & Hcap2).
  unfold run_outcome. rewrite Hrun1, Hrun2. split; [done|]. f_equal.
  apply store_ext.
  - by rewrite Huc1, Huc2.
  - by rewrite Htx1, Htx2.
  - by rewrite Hr1, Hr2.
  - by rewrite Hc1, Hc2.
  - by rewrite Hp1, Hp2.
  - by rewrite Ho1, Ho2.
  - by rewrite Hcap1, Hcap2.
Qed.

Lemma capture_completed_courier_independent_witness :
  let event := completed_event (Some "user_1_course_2") (Some "ORDER1") None in
  let s := example_store [] [example_pending] in
  run_outcome (handlePaymentCaptureCompleted example_world event) s = Done tt ∧
  handlePaymentCaptureCompleted
    (with_confirmation_courier example_world (λ _ _ _, Err courier_error)) event s
  = handlePaymentCaptureCompleted example_world event s.
Proof.
  apply (capture_completed_courier_independent example_world _ _ 1 2
           example_config example_course).
  - reflexivity.
  - repeat split.
  - reflexivity.
Defined.

Lemma completed_unknown_course w event u c s :
  event_ids event = Some (u, c) →
  (course_dir_exists w c = false ∨
   ∃ cfg, config_yaml w = Ok cfg ∧
          find (λ cc, bool_decide (cc_id cc = c)) (courses cfg) = None) →
  handlePaymentCaptureCompleted w event s = (Done tt, s).
Proof.
  intros (cid & H & Hp)%event_ids_Some Hmissing.
  unfold handlePaymentCaptureCompleted. rewrite H, Hp.
  destruct (course_dir_exists w c) eqn:Hdir; simpl; [|done].
  destruct Hmissing as [?|(cfg & Hcfg & Hfind)]; [done|].
  unfold loadCourseMetadata, getCourseConfig, loadAppConfig. unfold_handler.
  rewrite Hcfg. simpl. by rewrite Hfind.
Qed.

(** X6. A capture-completed event for a course whose directory is missing,
    or that [config.yaml] does not list, is dropped: the handler returns
    normally and nothing is granted or recorded, even though the custom id
    is fine and the payment was captured. *)
Theorem capture_completed_unknown_course w event u c s :
  event_ids event = Some (u, c) →
  (course_dir_exists w c = false ∨
   ∃ cfg, config_yaml w = Ok cfg ∧
          find (λ cc, bool_decide (cc_id cc = c)) (courses cfg) = None) →
  handlePaymentCaptureCompleted w event s = (Done tt, s).
Proof. apply completed_unknown_course. Qed.

Lemma capture_completed_unknown_course_witness :
  let event := completed_event (Some "user_1_course_3") None None in
  handlePaymentCaptureCompleted example_world event (example_store [] [])
  = (Done tt, example_store [] []).
Proof.
  apply (capture_completed_unknown_course example_world _ 1 3).
  - reflexivity.
  - left. reflexivity.
Defined.


(** ** What every webhook request keeps *)

Lemma order_approved_run w event s :
  handleCheckoutOrderApproved w event s =
  (Done tt,
   match captureOrder w (rs_id (resource event)) with
   | Ok cr =>
       run_store (handlePaymentCaptureCompleted w (capture_event event cr))
         (add_provider_capture (rs_id (resource event)) s)
   | Err _ => add_provider_capture (rs_id (resource event)) s
   end).
Proof.
  unfold handleCheckoutOrderApproved, run_store. unfold_handler. simpl.
  destruct (captureOrder w _) as [cr|e]; simpl; [|done].
  fold (capture_event event cr).
  by destruct (handlePaymentCaptureCompleted w (capture_event event cr) _)
    as [[[]|e] s'].
Qed.

(** A way to show that something holds between the store before and after
    any webhook request: show it of each handler, of the logging of a capture
    call, and that it composes. *)
Lemma webhook_relates (R : option (Z * Z) → store → store → Prop) :
  (∀ ids s, R ids s s) →
  (∀ ids s1 s2 s3, R ids s1 s2 → R ids s2 s3 → R ids s1 s3) →
  (∀ w e s, R (event_ids e) s (run_store (handlePaymentCaptureCompleted w e) s)) →
  (∀ w e s, R (event_ids e) s (run_store (handlePaymentCaptureDenied w e) s)) →
  (∀ w e s, R (event_ids e) s (run_store (handlePaymentCaptureRefunded w e) s)) →
  (∀ ids o s, R ids s (add_provider_capture o s)) →
  ∀ w req s,
    R (event_ids (rq_body req)) s (run_store (handlePayPalWebhook w req) s).
Proof.
  intros Hrefl Htrans Hc Hd Hr Hcap w req s.
  assert (R (event_ids (rq_body req)) s (run_store (route w (rq_body req)) s))
    as Hroute.
  { unfold route. repeat case_decide; auto.
    unfold run_store. rewrite order_approved_run. simpl.
    destruct (captureOrder w _) as [cr|e]; [|done].
    eapply Htrans; [apply Hcap|].
    apply (Hc w (capture_event (rq_body req) cr)). }
  unfold handlePayPalWebhook, run_store, try_catch. unfold bind at 1.
  unfold signature_gate.
  destruct (Js.truthy _) as [id|].
  - unfold_handler.
    destruct (verifyWebhookSignature _ _ _ _) as [[]|]; simpl; try done.
    by destruct (route w (rq_body req) s) as [[[]|e] s'].
  - case_decide; [done|]. unfold_handler.
    by destruct (route w (rq_body req) s) as [[[]|e] s'].
Qed.

Lemma denied_store_cases w event s :
  run_store (handlePaymentCaptureDenied w event) s = s ∨
  ∃ u c pid a cur,
    run_store (handlePaymentCaptureDenied w event) s =
    insert_transaction u c pid a (Js.toUpperCase cur) Failed Purchase None (now w) s.
Proof.
  destruct (event_ids event) as [[u c]|] eqn:Hids.
  - destruct (config_yaml w) as [cfg|err] eqn:Hcfg.
    + right. unfold run_store. rewrite (denied_recorded w event u c cfg) by done.
      unfold normalizeCurrency at 1. by eexists _, _, _, _, _.
    + left. by rewrite (denied_config_error w event err).
  - left. unfold run_store. by rewrite denied_dropped.
Qed.

Lemma refunded_store_cases w event s :
  run_store (handlePaymentCaptureRefunded w event) s = s ∨
  ∃ u c pid a cur,
    run_store (handlePaymentCaptureRefunded w event) s =
    set_redis (delete (CACHE_KEYS.USER_COURSES u))
      (insert_transaction u c pid a (Js.toUpperCase cur) Refunded Refund None (now w)
         (delete_user_courses u c s)) ∧
    event_ids event = Some (u, c).
Proof.
  destruct (event_ids event) as [[u c]|] eqn:Hids.
  - destruct (config_yaml w) as [cfg|err] eqn:Hcfg.
    + right. unfold run_store. rewrite (refunded_processed w event u c cfg) by done.
      unfold normalizeCurrency at 1. by eexists _, _, _, _, _.
    + left. apply event_ids_Some in Hids as (cid & H & Hp).
      unfold handlePaymentCaptureRefunded, run_store. rewrite H, Hp.
      unfold resolvePaypalCurrency, loadAppConfig. unfold_handler.
      by rewrite Hcfg.
  - left. unfold run_store. by rewrite refunded_dropped.
Qed.

Lemma count_after_delete (P Q : entitlement → Prop)
    `{∀ x, Decision (P x)} `{∀ x, Decision (Q x)} (l : list entitlement) :
  (length (filter P (filter Q l)) ≤ length (filter P l))%nat.
Proof.
  induction l as [|x l IH]; [done|].
  rewrite (filter_cons Q). destruct (decide (Q x)).
  - rewrite !filter_cons. destruct (decide (P x)); simpl; lia.
  - rewrite filter_cons. destruct (decide (P x)); simpl; lia.
Qed.

Lemma completed_entitlements_unique w event s :
  entitlements_unique s →
  entitlements_unique (run_store (handlePaymentCaptureCompleted w event) s).
Proof.
  intros Hu.
  destruct (completed_store_cases w event s)
    as [-> | (u & c & cfg & cc & Hids & Hav & Hex)]; [done|].
  destruct (completed_grant w event u c cfg cc s Hids Hav Hex)
    as (s' & Hrun & Huc & _).
  unfold run_store. rewrite Hrun. simpl. intros u' c'.
  unfold entitlement_count, select_user_courses. rewrite Huc, filter_app, length_app.
  rewrite filter_cons, filter_nil.
  destruct (decide _) as [[Hu' Hc']|_]; simpl in *.
  - subst u' c'. unfold select_user_courses in Hex. rewrite Hex. simpl. lia.
  - specialize (Hu u' c'). unfold entitlement_count, select_user_courses in Hu. lia.
Qed.

(** X7. No webhook request ever produces a second entitlement row for a
    (user, course) pair: if each pair has at most one row of [user_courses]
    before the request, so it has after, whatever the event and the world. *)
Theorem webhook_keeps_entitlements_unique w req s :
  entitlements_unique s →
  entitlements_unique (run_store (handlePayPalWebhook w req) s).
Proof.
  apply (webhook_relates (λ _ s s', entitlements_unique s → entitlements_unique s')).
  - done.
  - auto.
  - intros. by apply completed_entitlements_unique.
  - intros w' e s' Hu.
    destruct (denied_store_cases w' e s') as [-> | (u & c & pid & a & cur & ->)]; done.
  - intros w' e s' Hu.
    destruct (refunded_store_cases w' e s')
      as [-> | (u & c & pid & a & cur & -> & _)]; [done|].
    intros u' c'. unfold entitlement_count, select_user_courses. simpl.
    etrans; [apply count_after_delete|]. apply (Hu u' c').
  - done.
Qed.

Lemma webhook_keeps_entitlements_unique_witness :
  let req := {| rq_headers := example_headers (Some "good");
                rq_body := completed_event (Some "user_1_course_2") None None |} in
  entitlements_unique
    (run_store (handlePayPalWebhook example_world req)
       (example_store [example_entitlement] [])).
Proof.
  apply (webhook_keeps_entitlements_unique example_world).
  intros u c. unfold entitlement_count, select_user_courses. simpl.
  rewrite filter_cons, filter_nil. destruct (decide _); simpl; lia.
Defined.

Lemma normalizeCurrency_upper v fb :
  Js.toUpperCase (normalizeCurrency v fb) = normalizeCurrency v fb.
Proof. unfold normalizeCurrency. apply toUpperCase_idem. Qed.

Lemma currencies_upper_snoc (l : list transaction) r :
  (∀ x, x ∈ l → Js.toUpperCase (tx_currency x) = tx_currency x) →
  Js.toUpperCase (tx_currency r) = tx_currency r →
  ∀ x, x ∈ l ++ [r] → Js.toUpperCase (tx_currency x) = tx_currency x.
Proof.
  intros Hl Hr x [Hx | ->%list_elem_of_singleton]%elem_of_app; auto.
Qed.

Lemma completed_currencies_upper w event s :
  currencies_upper s →
  currencies_upper (run_store (handlePaymentCaptureCompleted w event) s).
Proof.
  intros Hup.
  destruct (completed_store_cases w event s)
    as [-> | (u & c & cfg & cc & Hids & Hav & Hex)]; [done|].
  destruct (completed_grant w event u c cfg cc s Hids Hav Hex)
    as (s' & Hrun & _ & Htx & _).
  unfold run_store. rewrite Hrun. simpl. unfold currencies_upper. rewrite Htx.
  destruct (pending_for event u c s) as [p|].
  - intros r (r0 & -> & Hr0)%list_elem_of_fmap. unfold update_where_id.
    destruct (decide _); [|by apply Hup]. simpl. apply normalizeCurrency_upper.
  - apply currencies_upper_snoc; [apply Hup|]. simpl. apply normalizeCurrency_upper.
Qed.

(** X8. Every currency a webhook request writes is in upper case: if all
    rows of [transactions] carry an upper-case currency before the request,
    so they do after. *)
Theorem webhook_keeps_currencies_upper w req s :
  currencies_upper s →
  currencies_upper (run_store (handlePayPalWebhook w req) s).
Proof.
  apply (webhook_relates (λ _ s s', currencies_upper s → currencies_upper s')).
  - done.
  - auto.
  - intros. by apply completed_currencies_upper.
  - intros w' e s' Hup.
    destruct (denied_store_cases w' e s') as [-> | (u & c & pid & a & cur & ->)];
      [done|].
    unfold currencies_upper. simpl. apply currencies_upper_snoc; [apply Hup|].
    simpl. apply toUpperCase_idem.
  - intros w' e s' Hup.
    destruct (refunded_store_cases w' e s')
      as [-> | (u & c & pid & a & cur & -> & _)]; [done|].
    unfold currencies_upper. simpl. apply currencies_upper_snoc; [apply Hup|].
    simpl. apply toUpperCase_idem.
  - done.
Qed.

Lemma webhook_keeps_currencies_upper_witness :
  let req := {| rq_headers := example_headers (Some "good");
                rq_body := completed_event (Some "user_1_course_2") (Some "ORDER1")
                             (Some {| currency_code := " eur "; value := "5" |}) |} in
  currencies_upper
    (run_store (handlePayPalWebhook example_world req)
       (example_store [] [example_pending])).
Proof.
  apply (webhook_keeps_currencies_upper example_world).
  intros r ->%list_elem_of_singleton. reflexivity.
Defined.

Lemma row_kept_trans r1 r2 r3 : row_kept r1 r2 → row_kept r2 r3 → row_kept r1 r3.
Proof.
  intros [->|[Hp (pid & a & cur & ->)]] H23; [done|].
  destruct H23 as [->|[Hp' _]]; [|done].
  right. split; [done|]. by exists pid, a, cur.
Qed.

Lemma rows_kept_refl l : rows_kept l l.
Proof. intros k r Hk. exists r. split; [done|by left]. Qed.

Lemma rows_kept_trans l1 l2 l3 : rows_kept l1 l2 → rows_kept l2 l3 → rows_kept l1 l3.
Proof.
  intros H12 H23 k r Hk.
  destruct (H12 k r Hk) as (r' & Hk' & Hr).
  destruct (H23 k r' Hk') as (r'' & Hk'' & Hr').
  exists r''. split; [done|]. by eapply row_kept_trans.
Qed.

Lemma rows_kept_snoc l r : rows_kept l (l ++ [r]).
Proof.
  intros k x Hk. exists x. split; [|by left]. by apply lookup_app_l_Some.
Qed.

Lemma NoDup_ids_same_row (l : list transaction) j k p r :
  NoDup (tx_id <$> l) → l !! j = Some p → l !! k = Some r →
  tx_id r = tx_id p → r = p.
Proof.
  intros Hnd Hj Hk Hid.
  assert (j = k) as ->.
  { apply (NoDup_lookup (tx_id <$> l) j k (tx_id p)); [done|..].
    - by rewrite list_lookup_fmap, Hj.
    - rewrite list_lookup_fmap, Hk. simpl. by rewrite Hid. }
  congruence.
Qed.

Lemma rows_kept_update (l : list transaction) p pid a cur :
  NoDup (tx_id <$> l) → p ∈ l → tx_status p = Pending →
  rows_kept l (update_where_id (tx_id p) (set_payment Success pid a cur) <$> l).
Proof.
  intros Hnd [j Hj]%list_elem_of_lookup Hst k r Hk.
  eexists. rewrite list_lookup_fmap, Hk. split; [reflexivity|].
  unfold update_where_id. destruct (decide _) as [Hid|]; [|by left].
  right. rewrite (NoDup_ids_same_row l j k p r Hnd Hj Hk Hid).
  split; [done|]. by exists pid, a, cur.
Qed.

Lemma completed_rows_kept w event s :
  tx_ids_unique s →
  rows_kept (transactions s)
    (transactions (run_store (handlePaymentCaptureCompleted w event) s)).
Proof.
  intros Hnd.
  destruct (completed_store_cases w event s)
    as [-> | (u & c & cfg & cc & Hids & Hav & Hex)]; [apply rows_kept_refl|].
  destruct (completed_grant w event u c cfg cc s Hids Hav Hex)
    as (s' & Hrun & _ & Htx & _).
  unfold run_store. rewrite Hrun. simpl. rewrite Htx.
  destruct (pending_for event u c s) as [p|] eqn:Hp.
  - apply pending_for_Some in Hp as (Hin & Hst & _). by apply rows_kept_update.
  - apply rows_kept_snoc.
Qed.

(** X9. The rows of [transactions] are a ledger for the webhook: with [id]
    a key, a request never removes or moves a row, and the only change it
    ever makes to an existing row is to settle a [pending] one as [success]
    (new payment id, amount and currency; same id, user, course, type and
    dates).  Rows that are [success], [failed] or [refunded] stay as they
    are; and [id] is still a key afterwards. *)
Theorem webhook_keeps_ledger w req s :
  tx_ids_unique s →
  let s' := run_store (handlePayPalWebhook w req) s in
  tx_ids_unique s' ∧ rows_kept (transactions s) (transactions s').
Proof.
  apply (webhook_relates
           (λ _ s s', tx_ids_unique s →
                      tx_ids_unique s' ∧ rows_kept (transactions s) (transactions s'))).
  - intros _ s0 Hnd. split; [done|apply rows_kept_refl].
  - intros _ s1 s2 s3 H12 H23 Hnd.
    destruct (H12 Hnd) as [Hnd2 Hk12]. destruct (H23 Hnd2) as [Hnd3 Hk23].
    split; [done|]. by eapply rows_kept_trans.
  - intros w' e s' Hnd. split;
      [by apply completed_ids_unique|by apply completed_rows_kept].
  - intros w' e s' Hnd. split; [by apply denied_ids_unique|].
    destruct (denied_store_cases w' e s') as [-> | (u & c & pid & a & cur & ->)];
      [apply rows_kept_refl|apply rows_kept_snoc].
  - intros w' e s' Hnd. split; [by apply refunded_ids_unique|].
    destruct (refunded_store_cases w' e s')
      as [-> | (u & c & pid & a & cur & -> & _)];
      [apply rows_kept_refl|apply rows_kept_snoc].
  - intros _ o s0 Hnd. split; [done|apply rows_kept_refl].
Qed.

Lemma webhook_keeps_ledger_witness :
  let req := {| rq_headers := example_headers (Some "good");
                rq_body := completed_event (Some "user_1_course_2") (Some "ORDER1")
                             None |} in
  let s := example_store [] [example_pending] in
  let s' := run_store (handlePayPalWebhook example_world req) s in
  tx_ids_unique s' ∧ rows_kept (transactions s) (transactions s').
Proof.
  apply (webhook_keeps_ledger example_world).
  apply NoDup_singleton.
Defined.

(** X10. A webhook request only ever removes cache entries, and only those
    of the user its custom id names: an entry under any other key is
    served afterwards exactly as before, and nothing is served that was not
    there before. *)
Theorem webhook_cache_frame w req s key :
  let s' := run_store (handlePayPalWebhook w req) s in
  (∀ v, cache_get key s' = Some v → cache_get key s = Some v) ∧
  ((∀ u c, event_ids (rq_body req) = Some (u, c) →
           key ≠ CACHE_KEYS.USER_COURSES u ∧ key ≠ CACHE_KEYS.USER u) →
   cache_get key s' = cache_get key s).
Proof.
  apply (webhook_relates
           (λ ids s s',
              (∀ v, cache_get key s' = Some v → cache_get key s = Some v) ∧
              ((∀ u c, ids = Some (u, c) →
                       key ≠ CACHE_KEYS.USER_COURSES u ∧ key ≠ CACHE_KEYS.USER u) →
               cache_get key s' = cache_get key s))).
  - done.
  - intros ids s1 s2 s3 [Ha1 Hb1] [Ha2 Hb2]. split; [auto|].
    intros Hk. by rewrite (Hb2 Hk), (Hb1 Hk).
  - intros w' e s0.
    destruct (completed_store_cases w' e s0)
      as [-> | (u & c & cfg & cc & Hids & Hav & Hex)]; [done|].
    destruct (completed_grant w' e u c cfg cc s0 Hids Hav Hex)
      as (s1 & Hrun & _ & _ & Hredis & _).
    unfold run_store. rewrite Hrun. simpl. unfold cache_get. rewrite Hredis.
    destruct (redis s0) as [m|]; simpl; [|done]. split.
    + intros v. rewrite !lookup_delete_Some. tauto.
    + intros Hk. destruct (Hk u c Hids) as [Hk1 Hk2].
      by rewrite !lookup_delete_ne.
  - intros w' e s0.
    destruct (denied_store_cases w' e s0) as [-> | (u & c & pid & a & cur & ->)];
      done.
  - intros w' e s0.
    destruct (refunded_store_cases w' e s0)
      as [-> | (u & c & pid & a & cur & -> & Hids)]; [done|].
    unfold cache_get. simpl. destruct (redis s0) as [m|]; simpl; [|done]. split.
    + intros v. rewrite lookup_delete_Some. tauto.
    + intros Hk. destruct (Hk u c Hids) as [Hk1 Hk2]. by rewrite lookup_delete_ne.
  - done.
Qed.

(** ** What the dispatcher answers *)

(** X11. The dispatcher never throws and answers 200, 401 or 500 only; a
    request answered 401 or 500 has left the store untouched. *)
Theorem webhook_response_shape w req s :
  ∃ r, run_outcome (handlePayPalWebhook w req) s = Done r ∧
       (status_code r = 200 ∨
        (status_code r = 401 ∨ status_code r = 500) ∧
        run_store (handlePayPalWebhook w req) s = s).
Proof.
  unfold handlePayPalWebhook, run_outcome, run_store, try_catch. unfold bind at 1 3.
  unfold signature_gate.
  destruct (Js.truthy _) as [id|].
  - unfold_handler.
    destruct (verifyWebhookSignature _ _ _ _) as [[]|]; simpl.
    + destruct (route w (rq_body req) s) as [[[]|e] s']; eexists; split; eauto.
    + eexists; split; [done|]. right. auto.
    + eexists; split; eauto.
  - case_decide.
    + eexists; split; [done|]. right. auto.
    + unfold_handler.
      destruct (route w (rq_body req) s) as [[[]|e] s']; eexists; split; eauto.
Qed.





(** X13. An approved order: the handler asks the provider to capture it and
    never throws.  When the capture call throws, nothing but that call has
    happened: no entitlement, no transaction row, no message.  When it
    answers, the store is the one [handlePaymentCaptureCompleted] leaves on
    the event that carries the capture id, amount and currency together
    with the custom id and order id of the approved order. *)
Theorem order_approved_captures_then_completes w event s :
  let orderId := rs_id (resource event) in
  let s' := run_store (handleCheckoutOrderApproved w event) s in
  run_outcome (handleCheckoutOrderApproved w event) s = Done tt ∧
  provider_captures s' = provider_captures s ++ [orderId] ∧
  (∀ e, captureOrder w orderId = Err e →
        s' = add_provider_capture orderId s ∧
        user_courses s' = user_courses s ∧ transactions s' = transactions s ∧
        confirmations s' = confirmations s) ∧
  (∀ cr, captureOrder w orderId = Ok cr →
         s' = run_store (handlePaymentCaptureCompleted w (capture_event event cr))
                (add_provider_capture orderId s)).
Proof.
  intros orderId s'. unfold s', run_outcome, run_store.
  rewrite order_approved_run. simpl. fold orderId.
  split; [done|]. split; [|split].
  - destruct (captureOrder w orderId) as [cr|e]; [|done].
    destruct (completed_store_cases w (capture_event event cr)
                (add_provider_capture orderId s))
      as [-> | (u & c & cfg & cc & Hids & Hav & Hex)]; [done|].
    destruct (completed_grant w _ u c cfg cc _ Hids Hav Hex)
      as (s1 & Hrun & _ & _ & _ & _ & _ & _ & Hcap).
    unfold run_store. by rewrite Hrun.
  - by intros e ->.
  - by intros cr ->.
Qed.

Lemma webhook_verification_throws_witness :
  let req := {| rq_headers := example_headers (Some "good");
                rq_body := completed_event (Some "user_1_course_2") None None |} in
  handlePayPalWebhook world_provider_down req (example_store [] []) =
  (Done {| status_code := 200; body := Received (Some "processed with error") |},
   example_store [] []).
Proof.
  apply (webhook_verification_throws world_provider_down _ provider_error).
  - discriminate.
  - reflexivity.
Defined.

(** ** Handlers one after the other *)

Lemma filter_no_match (P : entitlement → Prop) `{∀ x, Decision (P x)}
    (l : list entitlement) :
  filter P l = [] → filter (λ r, ¬ P r) l = l.
Proof.
  induction l as [|x l IH]; [done|].
  rewrite filter_cons. destruct (decide (P x)); [done|]. intros Hl.
  rewrite filter_cons_True by done. by rewrite IH.
Qed.

(** X15. A refund undoes a grant: for a pair that was not entitled, a
    capture-completed event followed by a refunded event for the same pair
    leaves [user_courses] exactly as it was at the start; the grant adds at
    most one row to [transactions] (none when it settles a pending one) and
    the refund appends one more, [refunded]. *)
Theorem refund_undoes_grant w1 w2 paid refund u c cfg1 cc cfg2 s :
  event_ids paid = Some (u, c) → event_ids refund = Some (u, c) →
  course_available w1 c cfg1 cc →
  config_yaml w2 = Ok cfg2 →
  entitlement_count u c s = 0%nat →
  let s1 := run_store (handlePaymentCaptureCompleted w1 paid) s in
  let s2 := run_store (handlePaymentCaptureRefunded w2 refund) s1 in
  entitlement_count u c s1 = 1%nat ∧
  user_courses s2 = user_courses s ∧
  (∃ r, transactions s2 = transactions s1 ++ [r] ∧ tx_status r = Refunded) ∧
  (length (transactions s) ≤ length (transactions s1) ≤ S (length (transactions s)))%nat.
Proof.
  intros Hpaid Hrefund Hav Hcfg Hex%length_zero_iff_nil s1 s2.
  pose proof (completed_grant_entitlement w1 paid u c cfg1 cc s Hpaid Hav Hex) as Hent.
  destruct (completed_grant w1 paid u c cfg1 cc s Hpaid Hav Hex)
    as (s' & Hrun & Huc & Htx & _).
  assert (s1 = s') as Hs1 by (unfold s1, run_store; by rewrite Hrun).
  unfold s2, run_store. rewrite (refunded_processed w2 refund u c cfg2) by done.
  simpl. fold s1. split; [|split; [|split]].
  - unfold entitlement_count, s1. by rewrite Hent.
  - rewrite Hs1, Huc, filter_app.
    rewrite (filter_no_match _ (user_courses s)) by exact Hex.
    rewrite filter_cons_False, filter_nil by (simpl; tauto).
    by rewrite app_nil_r.
  - eexists. split; [reflexivity|done].
  - rewrite Hs1, Htx. destruct (pending_for paid u c s).
    + rewrite length_fmap. lia.
    + rewrite length_app. simpl. lia.
Qed.

Lemma refund_undoes_grant_witness :
  let paid := completed_event (Some "user_1_course_2") (Some "ORDER1") None in
  let refund := example_event "PAYMENT.CAPTURE.REFUNDED" (Some "user_1_course_2")
                  None None in
  let s := example_store [] [example_pending] in
  let s1 := run_store (handlePaymentCaptureCompleted example_world paid) s in
  let s2 := run_store (handlePaymentCaptureRefunded example_world refund) s1 in
  entitlement_count 1 2 s1 = 1%nat ∧
  user_courses s2 = user_courses s ∧
  (∃ r, transactions s2 = transactions s1 ++ [r] ∧ tx_status r = Refunded) ∧
  (length (transactions s) ≤ length (transactions s1) ≤ S (length (transactions s)))%nat.
Proof.
  apply (refund_undoes_grant example_world example_world _ _ 1 2
           example_config example_course example_config).
  - reflexivity.
  - reflexivity.
  - repeat split.
  - reflexivity.
  - reflexivity.
Defined.

Lemma filter_status_snoc st (l : list transaction) r :
  length (filter (λ x, tx_status x = st) (l ++ [r])) =
  (length (filter (λ x, tx_status x = st) l)
   + if decide (tx_status r = st) then 1 else 0)%nat.
Proof.
  rewrite filter_app, length_app, filter_cons, filter_nil.
  by destruct (decide _).
Qed.

Section SettleById.

Variables (i : Z) (f : transaction → transaction).

(** With [id] a key, settling the one row [p] takes one row away from those
    of its old status. *)
Lemma update_where_id_uncount st (l : list transaction) p :
  NoDup (tx_id <$> l) → p ∈ l → tx_id p = i →
  tx_status p = st → tx_status (f p) ≠ st →
  S (length (filter (λ r, tx_status r = st) (update_where_id i f <$> l)))
  = length (filter (λ r, tx_status r = st) l).
Proof.
  intros Hnd Hp Hi Hst Hne.
  induction l as [|r l IH]; [by apply elem_of_nil in Hp|].
  rewrite fmap_cons in Hnd. apply NoDup_cons in Hnd as [Hr Hnd].
  apply elem_of_cons in Hp as [<-|Hp].
  - rewrite fmap_cons, (update_where_id_absent i f l) by (by rewrite <- Hi).
    unfold update_where_id. rewrite decide_True by done.
    rewrite filter_cons_False by done.
    by rewrite filter_cons_True by done.
  - assert (tx_id r ≠ i) as Hri.
    { intros E. apply Hr. rewrite E, <- Hi. by apply list_elem_of_fmap_2. }
    rewrite fmap_cons. unfold update_where_id at 1. rewrite decide_False by done.
    rewrite !filter_cons. destruct (decide (tx_status r = st)); simpl;
      by rewrite <- (IH Hnd Hp).
Qed.

End SettleById.

(** X16. From order to access.  After [createPurchaseOrder] succeeded with
    order id [orderId], a capture-completed event for the same user and
    course that refers to that order settles a pending row in place: the
    user is entitled once, [transactions] has exactly one row more than
    before the order (no second row for the capture), one more [success] row
    and as many [pending] rows as before the order. *)
Theorem purchase_then_capture_settles w1 w2 user_id body courseId cfg1 cc1 cfg2 cc2
    order event s :
  body ≫= Js.parseInt10 = Some courseId → courseId ≠ 0 →
  course_available w1 courseId cfg1 cc1 →
  course_available w2 courseId cfg2 cc2 →
  entitlement_count user_id courseId s = 0%nat →
  tx_ids_unique s →
  createOrder w1 (purchase_request w1 user_id courseId cfg1 cc1) = Ok order →
  event_ids event = Some (user_id, courseId) →
  Js.truthy (rs_order_id (resource event)) = Some (or_orderId order) →
  let s1 := run_store (createPurchaseOrder w1 user_id body) s in
  let s2 := run_store (handlePaymentCaptureCompleted w2 event) s1 in
  entitlement_count user_id courseId s2 = 1%nat ∧
  length (transactions s2) = S (length (transactions s)) ∧
  length (rows_with_status Success s2) = S (length (rows_with_status Success s)) ∧
  length (rows_with_status Pending s2) = length (rows_with_status Pending s).
Proof.
  intros Hparse Hnz Hav1 Hav2 Hex%length_zero_iff_nil Hnd Horder Hids Hoid s1 s2.
  pose proof (purchase_reaches_provider w1 user_id body courseId cfg1 cc1 s
                Hparse Hnz Hav1 Hex) as Hrun1.
  rewrite Horder in Hrun1.
  assert (user_courses s1 = user_courses s) as Huc1
    by (unfold s1, run_store; by rewrite Hrun1).
  assert (∃ r, transactions s1 = transactions s ++ [r] ∧
               matches_pending user_id courseId (or_orderId order) r)
    as (r & Htx1 & Hr).
  { unfold s1, run_store. rewrite Hrun1. simpl. eexists. split; [reflexivity|].
    by repeat split. }
  assert (select_user_courses user_id courseId s1 = []) as Hex1
    by (unfold select_user_courses; by rewrite Huc1).
  assert (tx_ids_unique s1) as Hnd1 by (by apply purchase_ids_unique).
  destruct (completed_grant w2 event user_id courseId cfg2 cc2 s1 Hids Hav2 Hex1)
    as (s' & Hrun2 & _ & Htx2 & _).
  assert (s2 = s') as Hs2 by (unfold s2, run_store; by rewrite Hrun2).
  assert (is_Some (pending_for event user_id courseId s1)) as [p Hp].
  { unfold pending_for. rewrite Hoid. simpl.
    apply (select_pending_is_Some _ _ _ _ r); [|done].
    rewrite Htx1. apply elem_of_app. right. by apply list_elem_of_singleton. }
  rewrite Hp in Htx2.
  apply pending_for_Some in Hp as (Hin & Hst & _).
  split; [|split; [|split]].
  - unfold entitlement_count, s2.
    by rewrite (completed_grant_entitlement w2 event user_id courseId cfg2 cc2 s1).
  - rewrite Hs2, Htx2, length_fmap, Htx1, length_app. simpl. lia.
  - rewrite Hs2. unfold rows_with_status. rewrite Htx2.
    rewrite (update_where_id_count (tx_id p) _ Success _ p Hnd1 Hin eq_refl)
      by (by rewrite ?Hst).
    rewrite Htx1, filter_status_snoc.
    destruct Hr as (_ & _ & Hrst & _). rewrite decide_False by (by rewrite Hrst).
    lia.
  - rewrite Hs2. unfold rows_with_status. rewrite Htx2.
    pose proof (update_where_id_uncount (tx_id p)
                  (set_payment Success (rs_id (resource event))
                     (payment_amount event cc2) (payment_currency event cfg2 cc2))
                  Pending _ p Hnd1 Hin eq_refl Hst) as Hun.
    assert (length (filter (λ x, tx_status x = Pending) (transactions s1)) =
            (length (filter (λ x, tx_status x = Pending) (transactions s)) + 1)%nat)
      as Hone.
    { rewrite Htx1, filter_status_snoc.
      destruct Hr as (_ & _ & Hrst & _). by rewrite decide_True. }
    specialize (Hun ltac:(done)). lia.
Qed.

Lemma purchase_then_capture_settles_witness :
  let event := completed_event (Some "user_1_course_2") (Some "ORDER1") None in
  let s := example_store [] [] in
  let s1 := run_store (createPurchaseOrder example_world 1 (Some "2")) s in
  let s2 := run_store (handlePaymentCaptureCompleted example_world event) s1 in
  entitlement_count 1 2 s2 = 1%nat ∧
  length (transactions s2) = S (length (transactions s)) ∧
  length (rows_with_status Success s2) = S (length (rows_with_status Success s)) ∧
  length (rows_with_status Pending s2) = length (rows_with_status Pending s).
Proof.
  apply (purchase_then_capture_settles example_world example_world 1 (Some "2") 2
           example_config example_course example_config example_course
           {| or_orderId := "ORDER1"; or_approveUrl := "https://pay.example/approve";
              or_amount := "19.99"; or_currency := "USD" |}).
  - reflexivity.
  - lia.
  - repeat split.
  - repeat split.
  - reflexivity.
  - apply NoDup_nil_2.
  - reflexivity.
  - reflexivity.
  - reflexivity.
Defined.

(** ** Custom ids and currencies, further *)


Lemma digit_val_nonneg c : Js.is_digit c = true → 0 ≤ Js.digit_val c.
Proof.
  unfold Js.is_digit, Js.digit_val. intros [H1 _]%andb_prop.
  apply N.leb_le in H1. lia.
Qed.

Lemma digits_value_from_nonneg d acc :
  all_digits d = true → 0 ≤ acc → 0 ≤ Js.digits_value_from acc d.
Proof.
  revert acc. induction d as [|c d IH]; intros acc; simpl; [done|].
  intros [Hc Hd]%andb_prop Hacc. apply IH; [done|].
  pose proof (digit_val_nonneg c Hc). lia.
Qed.

(** X19. A custom id of the exact form [user_<digits>_course_<digits>] is
    accepted, and the pair the handlers go on with is what [parseInt] reads
    from the two groups of digits: two numbers that are not negative. *)
Theorem custom_id_exact_form_accepted du dc :
  all_digits du = true → all_digits dc = true →
  Js.is_empty du = false → Js.is_empty dc = false →
  ∃ u c, Js.parseInt10 du = Some u ∧ Js.parseInt10 dc = Some c ∧
         0 ≤ u ∧ 0 ≤ c ∧
         parse_custom_id ("user_" +:+ du +:+ "_course_" +:+ dc) = Some (u, c).
Proof.
  intros Hu Hc Eu Ec. exists (Js.digits_value du), (Js.digits_value dc).
  rewrite !parseInt10_digits, parse_custom_id_exact by done.
  repeat split; by apply digits_value_from_nonneg.
Qed.

Lemma custom_id_exact_form_accepted_witness :
  ∃ u c, Js.parseInt10 "0042" = Some u ∧ Js.parseInt10 "7" = Some c ∧
         0 ≤ u ∧ 0 ≤ c ∧
         parse_custom_id ("user_" +:+ "0042" +:+ "_course_" +:+ "7") = Some (u, c).
Proof. apply (custom_id_exact_form_accepted "0042" "7"); reflexivity. Defined.

Lemma toUpperCase_nonempty s : Js.is_empty (Js.toUpperCase s) = Js.is_empty s.
Proof. by destruct s. Qed.

(** X20. [normalizeCurrency]: the result is in upper case, and so is left
    alone when normalised again; it is the trimmed value when that is not
    blank and the fallback otherwise; and it is not empty unless the
    fallback is. *)
Theorem normalizeCurrency_result v fb :
  Js.toUpperCase (normalizeCurrency v fb) = normalizeCurrency v fb ∧
  normalizeCurrency None (normalizeCurrency v fb) = normalizeCurrency v fb ∧
  (∀ x, v = Some x → Js.is_empty (Js.trim x) = false →
        normalizeCurrency v fb = Js.toUpperCase (Js.trim x)) ∧
  ((v = None ∨ ∃ x, v = Some x ∧ Js.is_empty (Js.trim x) = true) →
   normalizeCurrency v fb = Js.toUpperCase fb) ∧
  (Js.is_empty fb = false → Js.is_empty (normalizeCurrency v fb) = false).
Proof.
  split; [apply normalizeCurrency_upper|].
  split; [apply normalizeCurrency_idem_absent|].
  split; [|split].
  - intros x -> Hx. unfold normalizeCurrency. by rewrite Hx.
  - intros [->|(x & -> & Hx)]; unfold normalizeCurrency; [done|by rewrite Hx].
  - intros Hfb. unfold normalizeCurrency. rewrite toUpperCase_nonempty.
    set (t := match v with Some v0 => Js.trim v0 | None => EmptyString end).
    by destruct (Js.is_empty t) eqn:E.
Qed.

Lemma purchase_cases w user_id body s r :
  createPurchaseOrder w user_id body s = r →
  (∃ e, r = (Done (Next e), s)) ∨
  (∃ e rq, r = (Done (Next e), add_provider_order rq s)) ∨
  (∃ d rq courseId a cur mid title t,
     r = (Done (Json d),
          insert_transaction user_id courseId (pd_orderId d) a cur Pending
            Purchase mid t
            (add_processing_notice (user_id, title) (add_provider_order rq s)))).
Proof.
  unfold createPurchaseOrder, try_catch.
  destruct (body ≫= Js.parseInt10) as [courseId|]; [|intros <-; left; by eexists].
  destruct (courseId =? 0); [intros <-; left; by eexists|].
  destruct (course_dir_exists w courseId); simpl; [|intros <-; left; by eexists].
  unfold bind at 1.
  pose proof (loadCourseMetadata_store w courseId s) as Hm.
  destruct (loadCourseMetadata w courseId s) as [[[meta|]|e] s'];
    simpl in Hm; subst s'; try (intros <-; left; by eexists).
  unfold bind at 1.
  pose proof (resolvePaypalCurrency_store w (Some (meta_currency meta)) s) as Hr.
  destruct (resolvePaypalCurrency w (Some (meta_currency meta)) s) as [[cur|e] s'];
    simpl in Hr; subst s'; try (intros <-; left; by eexists).
  unfold bind at 1, get_store.
  destruct (0 <? length (select_user_courses user_id courseId s))%nat;
    [intros <-; left; by eexists|].
  unfold sendPurchaseProcessingNotification. unfold_handler. simpl.
  destruct (createOrder w _) as [order|e]; simpl;
    [|intros <-; right; left; by eexists _, _].
  destruct (processing_courier w _ _) as [mid|e]; simpl;
    intros <-; right; right;
    exists (Build_purchase_data (or_orderId order) (or_approveUrl order)
              (meta_price meta) (or_amount order) (or_currency order));
    do 7 eexists; reflexivity.
Qed.

(** X21. [createPurchaseOrder] never throws past its [catch] and never
    grants: whatever the request and the world, [user_courses], the cache
    and the confirmations are untouched; when it answers with an order, the
    table has exactly one new row, [pending], for that user and keyed by
    the order id it answers with; when it ends in [next(error)], the table
    is as it was. *)
Theorem purchase_only_adds_pending w user_id body s :
  let r := createPurchaseOrder w user_id body s in
  user_courses (snd r) = user_courses s ∧
  redis (snd r) = redis s ∧
  confirmations (snd r) = confirmations s ∧
  ∃ reply, fst r = Done reply ∧
    match reply with
    | Json d =>
        ∃ row, transactions (snd r) = transactions s ++ [row] ∧
               tx_status row = Pending ∧ tx_user_id row = user_id ∧
               tx_payment_id row = pd_orderId d
    | Next _ => transactions (snd r) = transactions s
    end.
Proof.
  intros r.
  destruct (purchase_cases w user_id body s r eq_refl)
    as [(e & ->) | [(e & rq & ->) | (d & rq & cid & a & cur & mid & ti & t & ->)]];
    simpl; repeat split; eexists; (split; [reflexivity|]); simpl; try done.
  eexists. split; [reflexivity|done].
Qed.

(** ** The configuration loader *)

(** X22. Once [loadAppConfig] has returned a configuration, every later call
    that resolves to the same path returns that same configuration from
    memory, whatever the file holds by then, even if it can no longer be
    read or parsed: an edit of [config.yaml] is not seen by the running
    server. *)
Theorem config_is_cached f1 f2 st cfg st1 :
  AppConfig.loadAppConfig f1 st = (Ok cfg, st1) →
  AppConfig.resolveConfigPath f2 = AppConfig.resolveConfigPath f1 →
  AppConfig.loadAppConfig f2 st1 = (Ok cfg, st1).
Proof.
  unfold AppConfig.loadAppConfig. intros Hload ->.
  destruct (AppConfig.cachedConfig st) as [c|] eqn:Hc.
  - destruct (decide (AppConfig.cachedPath st = _)) as [Hp|Hp].
    + injection Hload as <- <-. by rewrite Hc, decide_True.
    + destruct (AppConfig.read_config f1 _) as [data|e]; [|done].
      injection Hload as <- <-. simpl. by rewrite decide_True.
  - destruct (AppConfig.read_config f1 _) as [data|e]; [|done].
    injection Hload as <- <-. simpl. by rewrite decide_True.
Qed.

Lemma config_is_cached_witness :
  let f1 := AppConfig.example_files (Ok example_config) in
  let f2 := AppConfig.example_files
              (Err {| err_message := "Invalid config.yaml"; err_status := None |}) in
  let st1 := {| AppConfig.cachedConfig := Some example_config;
                AppConfig.cachedPath := Some "/srv/app/config.yaml" |} in
  AppConfig.loadAppConfig f2 st1 = (Ok example_config, st1).
Proof.
  apply (config_is_cached (AppConfig.example_files (Ok example_config)) _
           AppConfig.initial); reflexivity.
Defined.

(** X23. A call of [loadAppConfig] that cannot answer from memory (nothing
    is cached, or what is cached came from another path) answers what
    reading the resolved path gives; when that throws, the loader is left
    as it was, so a failure is never remembered and the next call reads the
    file again; when it succeeds, the loader holds the new configuration
    under the new path. *)
Theorem config_miss_reads_file f st :
  AppConfig.cachedConfig st = None ∨
  AppConfig.cachedPath st ≠ Some (AppConfig.resolveConfigPath f) →
  let r := AppConfig.loadAppConfig f st in
  r.1 = AppConfig.read_config f (AppConfig.resolveConfigPath f) ∧
  (∀ e, r.1 = Err e → r.2 = st) ∧
  (∀ cfg, r.1 = Ok cfg →
          r.2 = {| AppConfig.cachedConfig := Some cfg;
                   AppConfig.cachedPath := Some (AppConfig.resolveConfigPath f) |}).
Proof.
  intros Hmiss r. unfold r, AppConfig.loadAppConfig.
  assert (∀ load : result app_config * AppConfig.loader,
            match AppConfig.cachedConfig st with
            | Some cached =>
                if decide (AppConfig.cachedPath st =
                           Some (AppConfig.resolveConfigPath f))
                then (Ok cached, st) else load
            | None => load
            end = load) as ->.
  { intros load. destruct Hmiss as [-> | Hne]; [done|].
    destruct (AppConfig.cachedConfig st); [|done]. by rewrite decide_False. }
  destruct (AppConfig.read_config f _) as [data|e]; simpl;
    repeat split; by intros ? [= <-].
Qed.

Lemma config_miss_reads_file_witness :
  let f := AppConfig.example_files
             (Err {| err_message := "Invalid config.yaml"; err_status := None |}) in
  let r := AppConfig.loadAppConfig f AppConfig.initial in
  r.1 = AppConfig.read_config f (AppConfig.resolveConfigPath f) ∧
  (∀ e, r.1 = Err e → r.2 = AppConfig.initial) ∧
  (∀ cfg, r.1 = Ok cfg →
          r.2 = {| AppConfig.cachedConfig := Some cfg;
                   AppConfig.cachedPath := Some (AppConfig.resolveConfigPath f) |}).
Proof.
  apply (config_miss_reads_file
           (AppConfig.example_files
              (Err {| err_message := "Invalid config.yaml"; err_status := None |}))
           AppConfig.initial).
  left. reflexivity.
Defined.

Example config_path_resolution :
  AppConfig.resolveConfigPath (AppConfig.example_files (Ok example_config))
  = "/srv/app/config.yaml".
Proof. reflexivity. Qed.

(** ** Admin helpers *)

Lemma trim_start_idem s : Js.trim_start (Js.trim_start s) = Js.trim_start s.
Proof.
  induction s as [|c s IH]; simpl; [reflexivity|].
  destruct (Js.is_space c) eqn:E; [done|]. simpl. by rewrite E.
Qed.

Lemma trim_end_idem s : Js.trim_end (Js.trim_end s) = Js.trim_end s.
Proof.
  induction s as [|c s IH]; simpl; [reflexivity|].
  destruct (Js.is_space c && Js.is_empty (Js.trim_end s)) eqn:E; [done|].
  simpl. by rewrite IH, E.
Qed.

Lemma trim_start_trim_end s :
  Js.trim_start (Js.trim_end (Js.trim_start s)) = Js.trim_end (Js.trim_start s).
Proof.
  induction s as [|c s IH]; simpl; [reflexivity|].
  destruct (Js.is_space c) eqn:E; [done|].
  simpl. rewrite E. simpl. by rewrite E.
Qed.

Lemma trim_idem s : Js.trim (Js.trim s) = Js.trim s.
Proof. unfold Js.trim. by rewrite trim_start_trim_end, trim_end_idem. Qed.

(** X24. [parseDate] never returns an empty or blank date: what it returns
    is not empty and has no white space around it, so that parsing it again
    gives it back. *)
Theorem parseDate_trimmed value d :
  Admin.parseDate value = Some d →
  Js.is_empty d = false ∧ Js.trim d = d ∧ Admin.parseDate (Some d) = Some d.
Proof.
  unfold Admin.parseDate. destruct (Js.truthy value) as [v|]; [|done].
  destruct (Js.is_empty (Js.trim v)) eqn:E; [done|]. intros [= <-].
  split; [done|]. split; [apply trim_idem|].
  assert (Js.truthy (Some (Js.trim v)) = Some (Js.trim v)) as ->.
  { simpl. by rewrite E. }
  by rewrite trim_idem, E.
Qed.

Lemma parseDate_trimmed_witness :
  Js.is_empty "2024-01-31" = false ∧ Js.trim "2024-01-31" = "2024-01-31" ∧
  Admin.parseDate (Some "2024-01-31") = Some "2024-01-31".
Proof. apply (parseDate_trimmed (Some "  2024-01-31 ")). reflexivity. Defined.

Example parseDate_blank :
  Admin.parseDate None = None ∧ Admin.parseDate (Some "") = None ∧
  Admin.parseDate (Some "   ") = None.
Proof. repeat split. Qed.

Lemma max_lower a b : (a <= Admin.max a b)%Q ∧ (b <= Admin.max a b)%Q.
Proof.
  unfold Admin.max. destruct (Qle_bool a b) eqn:E.
  - apply Qle_bool_iff in E. split; [done|apply Qle_refl].
  - split; [apply Qle_refl|].
    apply Qlt_le_weak, Qnot_le_lt. intros H%Qle_bool_iff. congruence.
Qed.

Lemma min_upper a b : (Admin.min a b <= a)%Q ∧ (Admin.min a b <= b)%Q.
Proof.
  unfold Admin.min. destruct (Qle_bool a b) eqn:E.
  - apply Qle_bool_iff in E. split; [apply Qle_refl|done].
  - split; [|apply Qle_refl].
    apply Qlt_le_weak, Qnot_le_lt. intros H%Qle_bool_iff. congruence.
Qed.

Lemma min_lower c a b : (c <= a)%Q → (c <= b)%Q → (c <= Admin.min a b)%Q.
Proof. unfold Admin.min. by destruct (Qle_bool a b). Qed.

(** X25. Whatever the query holds, [parsePagination] yields a page of at
    least 1, a limit between 10 and 100 and an offset that is not negative;
    a page or limit that is absent or not a finite number gives the defaults
    1 and 20, while a finite limit out of range is clamped, not defaulted. *)
Theorem parsePagination_bounds query_page query_limit :
  let p := Admin.parsePagination query_page query_limit in
  (1 <= Admin.page p)%Q ∧
  (10 <= Admin.limit p)%Q ∧ (Admin.limit p <= 100)%Q ∧
  (0 <= Admin.offset p)%Q ∧
  (query_page ≫= Admin.isFinite = None → Admin.page p = 1%Q) ∧
  (query_limit ≫= Admin.isFinite = None → Admin.limit p = 20%Q).
Proof.
  intros p.
  assert (1 <= Admin.page p)%Q as Hpage.
  { unfold p, Admin.parsePagination. simpl.
    destruct (Admin.isFinite (default (Admin.Finite 1) query_page));
      [apply max_lower|apply Qle_refl]. }
  assert (10 <= Admin.limit p ∧ Admin.limit p <= 100)%Q as [Hlo Hhi].
  { unfold p, Admin.parsePagination. simpl.
    destruct (Admin.isFinite (default (Admin.Finite 20) query_limit)) as [q|].
    - split; [|apply min_upper]. apply min_lower; [done|apply max_lower].
    - split; done. }
  repeat split; try done.
  - change (Admin.offset p) with ((Admin.page p - 1) * Admin.limit p)%Q.
    apply Qmult_le_0_compat.
    + by apply (Qle_minus_iff 1 (Admin.page p)).
    + eapply Qle_trans; [|exact Hlo]. done.
  - unfold p, Admin.parsePagination. simpl.
    destruct query_page as [[| |q]|]; simpl; done.
  - unfold p, Admin.parsePagination. simpl.
    destruct query_limit as [[| |q]|]; simpl; done.
Qed.

Example parsePagination_examples :
  let value p := (Admin.page p, Admin.limit p, Admin.offset p) in
  value (Admin.parsePagination None None) = (1, 20, (1 - 1) * 20)%Q ∧
  value (Admin.parsePagination (Some (Admin.Finite 3)) (Some (Admin.Finite 5)))
  = (3, 10, (3 - 1) * 10)%Q ∧
  value (Admin.parsePagination (Some (Admin.Finite (-2))) (Some (Admin.Finite 1000)))
  = (1, 100, (1 - 1) * 100)%Q ∧
  value (Admin.parsePagination (Some Admin.NaN) (Some (Admin.Infinity false)))
  = (1, 20, (1 - 1) * 20)%Q.
Proof. repeat split. Qed.

(** ** The list of available courses *)

Lemma insert_by_id_perm x l : Admin.insert_by_id x l ≡ₚ x :: l.
Proof.
  induction l as [|y l IH]; simpl; [done|].
  destruct (x.1 <=? y.1); [done|]. by rewrite IH, Permutation_swap.
Qed.

Lemma sort_by_id_perm l : Admin.sort_by_id l ≡ₚ l.
Proof.
  induction l as [|x l IH]; simpl; [done|].
  by rewrite insert_by_id_perm, IH.
Qed.

Lemma insert_by_id_HdRel y x l :
  y.1 ≤ x.1 → HdRel (λ a b, a.1 ≤ b.1) y l →
  HdRel (λ a b : Z * string, a.1 ≤ b.1) y (Admin.insert_by_id x l).
Proof.
  intros Hyx Hy. destruct l as [|z l]; simpl.
  - by constructor.
  - destruct (x.1 <=? z.1); constructor; [done|]. by inversion Hy.
Qed.

Lemma insert_by_id_sorted x l :
  Sorted (λ a b : Z * string, a.1 ≤ b.1) l →
  Sorted (λ a b : Z * string, a.1 ≤ b.1) (Admin.insert_by_id x l).
Proof.
  induction l as [|y l IH]; simpl; intros Hs.
  - by repeat constructor.
  - destruct (x.1 <=? y.1) eqn:E.
    + apply Z.leb_le in E. constructor; [done|]. by constructor.
    + apply Z.leb_gt in E. inversion Hs; subst. constructor; [by apply IH|].
      apply insert_by_id_HdRel; [lia|done].
Qed.

Lemma sort_by_id_sorted l :
  Sorted (λ a b : Z * string, a.1 ≤ b.1) (Admin.sort_by_id l).
Proof.
  induction l as [|x l IH]; simpl; [constructor|]. by apply insert_by_id_sorted.
Qed.

Lemma insert_by_id_filter k x l :
  filter (λ a : Z * string, a.1 = k) (Admin.insert_by_id x l) =
  filter (λ a : Z * string, a.1 = k) (x :: l).
Proof.
  induction l as [|y l IH]; simpl; [done|].
  destruct (x.1 <=? y.1) eqn:E; [done|]. apply Z.leb_gt in E.
  rewrite (filter_cons _ y), IH, !(filter_cons _ x), (filter_cons _ y).
  destruct (decide (y.1 = k)), (decide (x.1 = k)); try done. lia.
Qed.

Lemma sort_by_id_filter k l :
  filter (λ a : Z * string, a.1 = k) (Admin.sort_by_id l) =
  filter (λ a : Z * string, a.1 = k) l.
Proof.
  induction l as [|x l IH]; simpl; [done|].
  rewrite insert_by_id_filter, !filter_cons, IH. done.
Qed.

(** X26. [listAvailableCourses] never throws and touches nothing.  When
    [config.yaml] loads it returns the courses as (id, title) pairs in
    ascending order of id: the same pairs, as many times each, and those
    with equal ids in their order in the file.  When loading throws it
    returns the empty list. *)
Theorem listAvailableCourses_sorted w s :
  ∃ l, Admin.listAvailableCourses w s = (Done l, s) ∧
    match config_yaml w with
    | Ok config =>
        let listed := (λ c, (cc_id c, cc_title c)) <$> courses config in
        Sorted (λ a b, a.1 ≤ b.1) l ∧ l ≡ₚ listed ∧
        ∀ k, filter (λ a, a.1 = k) l = filter (λ a, a.1 = k) listed
    | Err _ => l = []
    end.
Proof.
  unfold Admin.listAvailableCourses, loadAppConfig. unfold_handler.
  destruct (config_yaml w) as [config|e]; simpl; eexists; (split; [reflexivity|]).
  - split; [apply sort_by_id_sorted|]. split; [apply sort_by_id_perm|].
    intros k. apply sort_by_id_filter.
  - done.
Qed.

Example listAvailableCourses_example :
  Admin.sort_by_id [(3, "c"); (1, "a"); (2, "b"); (1, "a'")]
  = [(1, "a"); (1, "a'"); (2, "b"); (3, "c")].
Proof. reflexivity. Qed.

(** ** The favourite flag *)

Lemma toggle_row_involutive u c r : toggle_row u c (toggle_row u c r) = r.
Proof.
  destruct r as [i u0 c0 fav t]. unfold toggle_row. simpl.
  destruct (decide (u0 = u ∧ c0 = c)) as [H|H]; simpl.
  - rewrite decide_True by done. by rewrite negb_involutive.
  - by rewrite decide_False.
Qed.

Lemma toggle_row_ids u c r :
  uc_user_id (toggle_row u c r) = uc_user_id r ∧
  uc_course_id (toggle_row u c r) = uc_course_id r.
Proof. unfold toggle_row. by destruct (decide _). Qed.

Lemma toggle_row_other u c r :
  ¬ (uc_user_id r = u ∧ uc_course_id r = c) → toggle_row u c r = r.
Proof. intros H. unfold toggle_row. by rewrite decide_False. Qed.

Lemma filter_toggled u c u' c' (l : list entitlement) :
  filter (λ r, uc_user_id r = u' ∧ uc_course_id r = c') (toggle_row u c <$> l)
  = toggle_row u c <$> filter (λ r, uc_user_id r = u' ∧ uc_course_id r = c') l.
Proof.
  induction l as [|r l IH]; [done|]. rewrite fmap_cons, !filter_cons.
  destruct (toggle_row_ids u c r) as [-> ->].
  destruct (decide _); by rewrite IH.
Qed.

Lemma toggleFavorite_run user_id param_id courseId s :
  Js.parseInt10 param_id = Some courseId →
  toggleFavorite user_id param_id s =
  (Done (FavoriteJson
           (default false
              (uc_is_favorite <$>
               head (toggle_row user_id courseId <$>
                     select_user_courses user_id courseId s)))),
   set_redis (delete (CACHE_KEYS.USER_COURSES user_id))
     (set_user_courses (fmap (toggle_row user_id courseId)) s)).
Proof.
  intros Hparse. unfold toggleFavorite. rewrite Hparse. unfold_handler. simpl.
  unfold select_user_courses. simpl. by rewrite filter_toggled.
Qed.

(** X27. Toggling the favourite flag twice brings [user_courses] back to
    what it was, row for row, and the second answer is the opposite of the
    first when the user owns the course; a toggle never adds or removes an
    entitlement and never touches [transactions]. *)
Theorem toggleFavorite_twice user_id param_id courseId s :
  Js.parseInt10 param_id = Some courseId →
  let r1 := toggleFavorite user_id param_id s in
  let r2 := toggleFavorite user_id param_id r1.2 in
  user_courses r2.2 = user_courses s ∧
  transactions r1.2 = transactions s ∧
  (∀ u c, entitlement_count u c r1.2 = entitlement_count u c s) ∧
  (entitlement_count user_id courseId s ≠ 0%nat →
   ∃ b, r1.1 = Done (FavoriteJson b) ∧ r2.1 = Done (FavoriteJson (negb b))).
Proof.
  intros Hparse r1 r2. unfold r2, r1.
  rewrite (toggleFavorite_run user_id param_id courseId s Hparse). simpl.
  rewrite (toggleFavorite_run user_id param_id courseId _ Hparse). simpl.
  split; [|split; [done|split]].
  - rewrite <- list_fmap_compose. rewrite <- (list_fmap_id (user_courses s)) at 2.
    apply list_fmap_ext. intros _ r _. apply toggle_row_involutive.
  - intros u c. unfold entitlement_count, select_user_courses. simpl.
    by rewrite filter_toggled, length_fmap.
  - intros Hown. unfold select_user_courses. simpl. rewrite filter_toggled.
    unfold entitlement_count, select_user_courses in Hown.
    destruct (filter _ (user_courses s)) as [|r l] eqn:Hf; [done|].
    assert (uc_user_id r = user_id ∧ uc_course_id r = courseId) as Hr.
    { assert (r ∈ filter (λ r, uc_user_id r = user_id ∧ uc_course_id r = courseId)
                    (user_courses s)) as Hin by (rewrite Hf; left).
      by apply list_elem_of_filter in Hin as [? _]. }
    simpl. eexists. split; [reflexivity|]. rewrite toggle_row_involutive.
    unfold toggle_row. rewrite decide_True by done. simpl.
    by rewrite negb_involutive.
Qed.

Lemma toggleFavorite_twice_witness :
  let s := example_store [example_entitlement] [example_pending] in
  let r1 := toggleFavorite 1 "2" s in
  let r2 := toggleFavorite 1 "2" r1.2 in
  user_courses r2.2 = user_courses s ∧
  transactions r1.2 = transactions s ∧
  (∀ u c, entitlement_count u c r1.2 = entitlement_count u c s) ∧
  (entitlement_count 1 2 s ≠ 0%nat →
   ∃ b, r1.1 = Done (FavoriteJson b) ∧ r2.1 = Done (FavoriteJson (negb b))).
Proof. apply (toggleFavorite_twice 1 "2" 2). reflexivity. Defined.

(** X28. [toggleFavorite] at its edges: an id that does not start with a
    number is refused with "Invalid course ID" (status 400) and nothing
    changes; for a course the user does not own, the answer is
    [isFavorite: false] and [user_courses] is unchanged; and after any
    toggle the cached course list of the user is gone, while rows of other
    (user, course) pairs are as they were. *)
Theorem toggleFavorite_edges user_id param_id s :
  let r := toggleFavorite user_id param_id s in
  (Js.parseInt10 param_id = None →
   r = (Done (FavoriteNext (createError "Invalid course ID" 400)), s)) ∧
  (∀ courseId, Js.parseInt10 param_id = Some courseId →
     cache_get (CACHE_KEYS.USER_COURSES user_id) r.2 = None ∧
     (entitlement_count user_id courseId s = 0%nat →
      r.1 = Done (FavoriteJson false) ∧ user_courses r.2 = user_courses s) ∧
     (∀ k row, user_courses s !! k = Some row →
        ¬ (uc_user_id row = user_id ∧ uc_course_id row = courseId) →
        user_courses r.2 !! k = Some row)).
Proof.
  intros r. split.
  - intros Hparse. unfold r, toggleFavorite. by rewrite Hparse.
  - intros courseId Hparse. unfold r.
    rewrite (toggleFavorite_run user_id param_id courseId s Hparse). simpl.
    split; [|split].
    + apply (cache_get_after_del _ (set_user_courses _ s)).
    + intros Hnone%length_zero_iff_nil. rewrite Hnone. split; [done|].
      rewrite <- (list_fmap_id (user_courses s)) at 2.
      apply list_fmap_ext. intros k row Hk. apply toggle_row_other.
      intros Hrow.
      assert (row ∈ select_user_courses user_id courseId s) as Hin.
      { apply list_elem_of_filter. split; [done|].
        by apply list_elem_of_lookup_2 in Hk. }
      rewrite Hnone in Hin. by apply elem_of_nil in Hin.
    + intros k row Hk Hrow. rewrite list_lookup_fmap, Hk. simpl.
      by rewrite toggle_row_other.
Qed.

Example toggleFavorite_examples :
  (toggleFavorite 1 "abc" (example_store [example_entitlement] [])).1
  = Done (FavoriteNext (createError "Invalid course ID" 400)) ∧
  (toggleFavorite 1 "2" (example_store [example_entitlement] [])).1
  = Done (FavoriteJson true) ∧
  (toggleFavorite 1 "3" (example_store [example_entitlement] [])).1
  = Done (FavoriteJson false).
Proof. repeat split. Qed.
